(** * Ledger reconciliation of the GitHub statistics generator

    A shallow embedding of [github_stats/cache/manager.py] and
    [github_stats/api/repo_processing.py] (with the part of
    [github_stats/api/client.py] and [github_stats/config.py] they call),
    and the properties of the ledger that the specification states.

    Conventions of the embedding.
    - A Python [str] is a [string]; its characters are read as the code
      points 0..255.
    - A text file is the string Python's text layer presents (line
      terminator [\n]); the file system is a finite map from paths to
      such strings.  Opening for writing always succeeds (the cache
      directory is created by the manager's constructor).
    - Python integers are [Z]; [comment_size], a number of lines, is a
      [nat].
    - Exceptions are values of [exn]; a computation returns a [result].
    - The remote API is the list of HTTP responses it delivers to the
      successive queries of a run; a query beyond the list is never
      answered.  A failure of the remote is a response whose status is
      not 200, which [execute_query] turns into [APIError]; exceptions
      of the HTTP library itself are not part of the embedding.
    - The replies are typed after the queries of [api/queries.py];
      [option] marks the places where the code meets [null].
    - [process_loc_for_repo] calls itself once for each further page of
      a history, so that Python holds one frame per page and raises
      [RecursionError] when a history has more pages than the
      interpreter's recursion limit leaves room for.  The limit is not
      part of the embedding: the properties of the walk are stated for
      one call and the page it receives, and a property of a whole run
      holds of the code for the histories that stay within the
      limit. *)

From Stdlib Require Import ZArith String Ascii List Lia DecimalString DecimalPos.
From stdpp Require Import base option list gmap strings.

Local Open Scope string_scope.
Local Open Scope list_scope.
Local Open Scope Z_scope.

(** ** Exceptions and results *)

Inductive exn : Type :=
| FileNotFoundError
| IndexError
| ValueError
| TypeError
| APIError (msg : string).

(** [Stalled]: the remote never answers the pending query. *)
Inductive result (A : Type) : Type :=
| Ok (a : A)
| Raise (e : exn)
| Stalled.
Arguments Ok {A} a.
Arguments Raise {A} e.
Arguments Stalled {A}.

Global Instance result_ret : MRet result := λ A a, Ok a.
Global Instance result_bind : MBind result := λ A B k r,
  match r with
  | Ok a => k a
  | Raise e => Raise e
  | Stalled => Stalled
  end.

(** ** Python primitives on strings and lists *)

Module Py.

Definition nl : ascii := "010"%char.

(** [str.isspace] on one character (code points below 256). *)
Definition isspace (c : ascii) : bool :=
  match c with
  | "009" | "010" | "011" | "012" | "013"
  | "028" | "029" | "030" | "031" | " "
  | "133" | "160" => true
  | _ => false
  end%char.

(** Decimal digits accepted by [int]: the code points 48..57. *)
Definition digit_val (c : ascii) : option Z :=
  let code := Z.of_N (N_of_ascii c) in
  if (48 <=? code) && (code <=? 57) then Some (code - 48) else None.

(** [str.isdigit] on one character: the decimal digits and the
    superscripts [²], [³], [¹]. *)
Definition isdigit_char (c : ascii) : bool :=
  match digit_val c with
  | Some _ => true
  | None => match c with
            | "178" | "179" | "185" => true
            | _ => false
            end%char
  end.

Fixpoint all_chars (p : ascii → bool) (s : string) : bool :=
  match s with
  | "" => true
  | String c r => p c && all_chars p r
  end.

(** [s.isdigit()] *)
Definition isdigit (s : string) : bool :=
  match s with
  | "" => false
  | _ => all_chars isdigit_char s
  end.

(** [s.split()]: maximal runs of non-whitespace characters. *)
Fixpoint split_go (tok : string) (s : string) : list string :=
  match s with
  | "" => match tok with "" => [] | _ => [tok] end
  | String c r =>
      if isspace c
      then match tok with
           | "" => split_go "" r
           | _ => tok :: split_go "" r
           end
      else split_go (tok +:+ String c "") r
  end.
Definition split (s : string) : list string := split_go "" s.

(** [s.split(sep)] for a one-character separator. *)
Fixpoint split_on_go (sep : ascii) (tok : string) (s : string) : list string :=
  match s with
  | "" => [tok]
  | String c r =>
      if Ascii.eqb c sep
      then tok :: split_on_go sep "" r
      else split_on_go sep (tok +:+ String c "") r
  end.
Definition split_on (sep : ascii) (s : string) : list string :=
  split_on_go sep "" s.

(** The white space [int] skips on both sides of a literal: the
    characters of [isspace] except the separators 28..31, which it does
    not skip. *)
Definition int_space (c : ascii) : bool :=
  match c with
  | "009" | "010" | "011" | "012" | "013" | " "
  | "133" | "160" => true
  | _ => false
  end%char.

Fixpoint skip_space (s : string) : string :=
  match s with
  | "" => ""
  | String c r => if int_space c then skip_space r else s
  end.
Definition trim (s : string) : string :=
  String.rev (skip_space (String.rev (skip_space s))).

(** The digits of an [int] literal: digits, with single underscores
    between digits. *)
Fixpoint int_digits (acc : Z) (after_digit : bool) (s : string) : option Z :=
  match s with
  | "" => if after_digit then Some acc else None
  | String c r =>
      match digit_val c with
      | Some d => int_digits (10 * acc + d) true r
      | None =>
          if Ascii.eqb c "_"
          then if after_digit then int_digits acc false r else None
          else None
      end
  end.

(** [int(s)]; [ValueError] when [s] is not a decimal literal. *)
Definition int (s : string) : result Z :=
  let body :=
    match trim s with
    | String "+" r => int_digits 0 false r
    | String "-" r => Z.opp <$> int_digits 0 false r
    | r => int_digits 0 false r
    end in
  match body with
  | Some z => Ok z
  | None => Raise ValueError
  end.

(** [str(z)] *)
Definition str (z : Z) : string := NilZero.string_of_int (Z.to_int z).

(** [f.readlines()]: the lines, each with its terminator. *)
Fixpoint readlines (s : string) : list string :=
  match s with
  | "" => []
  | String c r =>
      if Ascii.eqb c nl then String c "" :: readlines r
      else match readlines r with
           | [] => [String c ""]
           | l :: ls => String c l :: ls
           end
  end.

(** [f.writelines(lines)] on an empty file. *)
Definition writelines (lines : list string) : string :=
  foldr String.app "" lines.

(** [l[i]] for [i >= 0] *)
Definition index {A} (l : list A) (i : nat) : result A :=
  match l !! i with
  | Some x => Ok x
  | None => Raise IndexError
  end.

(** [l[-1]] *)
Definition last_item {A} (l : list A) : result A :=
  match last l with
  | Some x => Ok x
  | None => Raise IndexError
  end.

(** A slice bound, as Python clips it. *)
Definition clip (len : nat) (i : Z) : nat :=
  if i <? 0 then Z.to_nat (Z.max 0 (Z.of_nat len + i))
  else Nat.min len (Z.to_nat i).

(** [l[lo:hi]] *)
Definition slice {A} (lo hi : Z) (l : list A) : list A :=
  let a := clip (length l) lo in
  let b := clip (length l) hi in
  take (b - a) (drop a l).

(** [s[:-1]] *)
Fixpoint drop_last (s : string) : string :=
  match s with
  | "" => ""
  | String c "" => ""
  | String c r => String c (drop_last r)
  end.

End Py.

(** ** External collaborators *)

(** [hashlib.sha256(s.encode('utf-8')).hexdigest()] *)
Class Hashlib := sha256_hexdigest : string → string.

(** ** Configuration ([config.py]) *)

(** The global [config]; [owner_id] is [None] or the dictionary
    [{'id': id}]. *)
Class Config := mkConfig {
  user_name : string;
  owner_id : option string;
}.

(** ** Remote data *)

(** One commit of a history page: [author] is [None] when the reply has
    [null] there, [Some None] when the author's [user] is [null]. *)
Record CommitNode := mkCommit {
  author : option (option string);
  additions : Z;
  deletions : Z;
}.

Record History := mkHistory {
  edges : list CommitNode;
  hasNextPage : bool;
  endCursor : option string;
}.

(** [response['data']['repository']]: [None] for [null]. *)
Record Repository := mkRepository {
  defaultBranchRef : option History;
}.

Record Response := mkResponse {
  status_code : Z;
  text : string;
  json : option Repository;
}.

(** An edge of the repository listing:
    [totalCount] is [edge['node']['defaultBranchRef']['target']['history']['totalCount']],
    [None] when [defaultBranchRef] is [null]. *)
Record RepoEdge := mkRepoEdge {
  nameWithOwner : string;
  totalCount : option Z;
}.

(** The variables of a [REPO_LOC_QUERY]. *)
Record Request := mkRequest {
  query_name : string;
  q_repo_name : string;
  q_owner : string;
  q_cursor : option string;
}.

(** ** The world a run acts on *)

Record World := mkWorld {
  fs : gmap string string;
  query_count : gmap string nat;
  sent : list Request;
  stdout : list string;
}.

Definition Remote := list Response.

(** What a call leaves behind: its result, the responses not yet
    delivered, and the world. *)
Definition Outcome (A : Type) : Type := result A * Remote * World.

Definition open_read (path : string) (w : World) : result string :=
  match fs w !! path with
  | Some content => Ok content
  | None => Raise FileNotFoundError
  end.

Definition open_write (path : string) (content : string) (w : World) : World :=
  mkWorld (<[path := content]> (fs w)) (query_count w) (sent w) (stdout w).

Definition print (line : string) (w : World) : World :=
  mkWorld (fs w) (query_count w) (sent w) (stdout w ++ [line]).

(** ** [api/client.py] *)

(** [Config.increment_query_count] *)
Definition increment_query_count (name : string) (w : World) : World :=
  match query_count w !! name with
  | Some n => mkWorld (fs w) (<[name := S n]> (query_count w)) (sent w) (stdout w)
  | None => w
  end.

(** The request leaves: the counter is updated and the request posted. *)
Definition post (rq : Request) (w : World) : World :=
  let w := increment_query_count (query_name rq) w in
  mkWorld (fs w) (query_count w) (sent w ++ [rq]) (stdout w).

(** The response handling of [GitHubClient.execute_query]. *)
Definition handle_response (rq : Request) (response : Response)
  : result (option Repository) :=
  if status_code response =? 200 then Ok (json response)
  else if status_code response =? 403
  then Raise (APIError "Rate limit exceeded. You've hit GitHub's anti-abuse limit.")
  else Raise (APIError ("Query '" +:+ query_name rq +:+ "' failed with status "
                          +:+ Py.str (status_code response) +:+ ": "
                          +:+ text response)).

(** [GitHubClient.execute_query] *)
Definition execute_query (rq : Request) (remote : Remote) (w : World)
  : Outcome (option Repository) :=
  match remote with
  | [] => (Stalled, [], post rq w)
  | response :: remote' => (handle_response rq response, remote', post rq w)
  end.

(** ** [cache/manager.py]: the recovery path *)

Section Manager.
Context `{Hashlib, Config}.

(** [os.path.join('cache', f"{digest}.txt")] *)
Definition cache_path (name : string) : string :=
  "cache/" +:+ sha256_hexdigest name +:+ ".txt".

(** [CacheManager.force_close_file] *)
Definition force_close_file (data cache_comment : list string) (w : World)
  : World :=
  let cache_file := cache_path (user_name) in
  let w := open_write cache_file
             (Py.writelines cache_comment +:+ Py.writelines data) w in
  print ("There was an error while writing to the cache file. The file, "
           +:+ cache_file
           +:+ " has had the partial data saved and closed.") w.

(** ** [api/repo_processing.py] *)

(** The loop over [history['edges']]. *)
Fixpoint count_commits (nodes : list CommitNode) (totals : Z * Z * Z)
  : result (Z * Z * Z) :=
  match nodes with
  | [] => Ok totals
  | node :: nodes' =>
      let '(addition_total, deletion_total, my_commits) := totals in
      match author node with
      | None => Raise TypeError
      | Some user =>
          if decide (user = owner_id)
          then count_commits nodes'
                 (addition_total + additions node,
                  deletion_total + deletions node,
                  my_commits + 1)
          else count_commits nodes' totals
      end
  end.

(** The [except APIError] clause of [process_loc_for_repo]. *)
Definition on_api_error (data cache_comment : list string)
    (out : Outcome (Z * Z * Z)) : Outcome (Z * Z * Z) :=
  match out with
  | (Raise (APIError msg), remote, w) =>
      (Raise (APIError msg), remote, force_close_file data cache_comment w)
  | _ => out
  end.

(** [process_loc_for_repo]; the totals are
    [(addition_total, deletion_total, my_commits)].  The recursion is on
    the replies of the remote, one call per page; the interpreter's
    bound on the depth of the calls is left out. *)
Fixpoint process_loc_for_repo (owner repo_name : string)
    (data cache_comment : list string) (cursor : option string)
    (totals : Z * Z * Z) (remote : Remote) (w : World)
  : Outcome (Z * Z * Z) :=
  let rq := mkRequest "recursive_loc" repo_name owner cursor in
  match remote with
  | [] => (Stalled, [], post rq w)
  | response :: remote' =>
      let w := post rq w in
      on_api_error data cache_comment
        match handle_response rq response with
        | Ok None => (Raise TypeError, remote', w)
        | Ok (Some repo_data) =>
            match defaultBranchRef repo_data with
            | None => (Ok totals, remote', w)
            | Some history =>
                match count_commits (edges history) totals with
                | Ok totals' =>
                    if bool_decide (edges history ≠ []) && hasNextPage history
                    then process_loc_for_repo owner repo_name
                           data cache_comment (endCursor history)
                           totals' remote' w
                    else (Ok totals', remote', w)
                | Raise e => (Raise e, remote', w)
                | Stalled => (Stalled, remote', w)
                end
            end
        | Raise e => (Raise e, remote', w)
        | Stalled => (Stalled, remote', w)
        end
  end.

(** ** [cache/manager.py]: the manager *)

Record CacheManager := mkCacheManager {
  self_user_name : string;
  cache_dir : string;
  cache_file : string;
}.

(** [CacheManager.__init__], with [_get_cache_filename] *)
Definition new_CacheManager (name : string) : CacheManager :=
  mkCacheManager name "cache" (cache_path name).

Definition comment_line : string :=
  "This line is a comment block. Write whatever you want here."
    +:+ String Py.nl "".

(** [if comment_size > 0: for _ in range(comment_size): data.append(...)] *)
Definition default_comments (comment_size : nat) : list string :=
  replicate comment_size comment_line.

(** [f"{repo_hash} 0 0 0 0\n"] *)
Definition sentinel (repo_hash : string) : string :=
  repo_hash +:+ " 0 0 0 0" +:+ String Py.nl "".

(** [f"{repo_hash} {current_commit_count} {loc[2]} {loc[0]} {loc[1]}\n"] *)
Definition record_line (repo_hash : string) (current_commit_count : Z)
    (loc : Z * Z * Z) : string :=
  let '(loc0, loc1, loc2) := loc in
  repo_hash +:+ " " +:+ Py.str current_commit_count
    +:+ " " +:+ Py.str loc2 +:+ " " +:+ Py.str loc0
    +:+ " " +:+ Py.str loc1 +:+ String Py.nl "".

Section Methods.
Variable self : CacheManager.

(** [CacheManager._flush_cache] *)
Definition _flush_cache (edges : list RepoEdge) (comment_size : nat)
    (w : World) : World :=
  let data :=
    match open_read (cache_file self) w with
    | Ok content =>
        if (0 <? comment_size)%nat
        then take comment_size (Py.readlines content)
        else []
    | _ => default_comments comment_size
    end in
  open_write (cache_file self)
    (Py.writelines data +:+
     Py.writelines
       (map (λ node, sentinel (sha256_hexdigest (nameWithOwner node)))
            edges))
    w.

(** [cache_builder], lines 57-67: read the ledger, or create it. *)
Definition read_cache (comment_size : nat) (w : World)
  : list string * World :=
  match open_read (cache_file self) w with
  | Ok content => (Py.readlines content, w)
  | _ =>
      let data := default_comments comment_size in
      (data, open_write (cache_file self) (Py.writelines data) w)
  end.

(** The test of line 70. *)
Definition needs_rebuild (data : list string) (comment_size : nat)
    (edges : list RepoEdge) (force_cache : bool) : bool :=
  negb (Z.of_nat (length data) - Z.of_nat comment_size
          =? Z.of_nat (length edges))
  || force_cache.

(** [cache_builder], lines 69-74; the result is [(cached, data)]. *)
Definition check_cache (edges : list RepoEdge) (comment_size : nat)
    (force_cache : bool) (data : list string) (w : World)
  : result (bool * list string) * World :=
  if needs_rebuild data comment_size edges force_cache
  then
    let w := _flush_cache edges comment_size w in
    (content ← open_read (cache_file self) w;
     Ok (false, Py.readlines content), w)
  else (Ok (true, data), w).

(** The [except TypeError] clause of the loop body. *)
Definition on_type_error (index : nat) (repo_hash : string)
    (data : list string) (out : Outcome (list string))
  : Outcome (list string) :=
  match out with
  | (Raise TypeError, remote, w) =>
      (Ok (<[index := sentinel repo_hash]> data), remote, w)
  | _ => out
  end.

(** The body of the loop of [cache_builder], lines 81-95, for
    [edge = edges[index]]. *)
Definition update_record (index : nat) (edge : RepoEdge)
    (cache_comment data : list string) (remote : Remote) (w : World)
  : Outcome (list string) :=
  match Py.index data index with
  | Ok line =>
      match Py.split line with
      | repo_hash :: commit_count :: _ =>
          let repo_hash_calculated :=
            sha256_hexdigest (nameWithOwner edge) in
          if decide (repo_hash = repo_hash_calculated)
          then
            on_type_error index repo_hash data
              match totalCount edge with
              | None => (Raise TypeError, remote, w)
              | Some current_commit_count =>
                  match Py.int commit_count with
                  | Ok stored =>
                      if bool_decide (stored ≠ current_commit_count)
                      then
                        match Py.split_on "/" (nameWithOwner edge) with
                        | [owner; repo_name] =>
                            match process_loc_for_repo owner repo_name
                                    data cache_comment None (0, 0, 0)
                                    remote w with
                            | (Ok loc, remote', w') =>
                                (Ok (<[index := record_line repo_hash
                                                  current_commit_count loc]>
                                       data),
                                 remote', w')
                            | (Raise e, remote', w') =>
                                (Raise e, remote', w')
                            | (Stalled, remote', w') =>
                                (Stalled, remote', w')
                            end
                        | _ => (Raise ValueError, remote, w)
                        end
                      else (Ok data, remote, w)
                  | Raise e => (Raise e, remote, w)
                  | Stalled => (Stalled, remote, w)
                  end
              end
          else (Ok data, remote, w)
      | _ => (Raise ValueError, remote, w)
      end
  | Raise e => (Raise e, remote, w)
  | Stalled => (Stalled, remote, w)
  end.

(** [for index in range(len(edges))], from [index] on; [rest] is
    [edges[index:]]. *)
Fixpoint reconcile (index : nat) (rest : list RepoEdge)
    (cache_comment data : list string) (remote : Remote) (w : World)
  : Outcome (list string) :=
  match rest with
  | [] => (Ok data, remote, w)
  | edge :: rest' =>
      match update_record index edge cache_comment data remote w with
      | (Ok data', remote', w') =>
          reconcile (S index) rest' cache_comment data' remote' w'
      | out => out
      end
  end.

(** [cache_builder], lines 102-106. *)
Fixpoint sum_loc (data : list string) (loc_add loc_del : Z)
  : result (Z * Z) :=
  match data with
  | [] => Ok (loc_add, loc_del)
  | line :: data' =>
      let loc := Py.split line in
      loc3 ← Py.index loc 3;
      added ← Py.int loc3;
      loc4 ← Py.index loc 4;
      deleted ← Py.int loc4;
      sum_loc data' (loc_add + added) (loc_del + deleted)
  end.

(** [cache_builder], lines 76-108, from the lines of the ledger. *)
Definition build_from (edges : list RepoEdge) (comment_size : nat)
    (loc_add loc_del : Z) (cached : bool) (data : list string)
    (remote : Remote) (w : World)
  : Outcome (Z * Z * Z * bool) :=
  let cache_comment := take comment_size data in
  let data := drop comment_size data in
  match reconcile 0 edges cache_comment data remote w with
  | (Ok data, remote, w) =>
      let w := open_write (cache_file self)
                 (Py.writelines cache_comment +:+ Py.writelines data) w in
      (match sum_loc data loc_add loc_del with
       | Ok (loc_add, loc_del) =>
           Ok (loc_add, loc_del, loc_add - loc_del, cached)
       | Raise e => Raise e
       | Stalled => Stalled
       end, remote, w)
  | (Raise e, remote, w) => (Raise e, remote, w)
  | (Stalled, remote, w) => (Stalled, remote, w)
  end.

(** [cache_builder], lines 57-74: the lines of the ledger that the
    reconciliation starts from, with the flag [cached]. *)
Definition open_ledger (edges : list RepoEdge) (comment_size : nat)
    (force_cache : bool) (w : World)
  : result (bool * list string) * World :=
  let '(data, w) := read_cache comment_size w in
  check_cache edges comment_size force_cache data w.

(** [CacheManager.cache_builder]; the result is
    [[loc_add, loc_del, loc_add - loc_del, cached]]. *)
Definition cache_builder (edges : list RepoEdge) (comment_size : nat)
    (force_cache : bool) (loc_add loc_del : Z)
    (remote : Remote) (w : World)
  : Outcome (Z * Z * Z * bool) :=
  match open_ledger edges comment_size force_cache w with
  | (Ok (cached, data), w) =>
      build_from edges comment_size loc_add loc_del cached data remote w
  | (Raise e, w) => (Raise e, remote, w)
  | (Stalled, w) => (Stalled, remote, w)
  end.

End Methods.

(** ** [CacheManager.add_archive] *)

Definition archive_file : string := "cache/repository_archive.txt".

(** The loop of lines 155-160 on
    [(added_loc, deleted_loc, added_commits)]. *)
Fixpoint archive_totals (data : list string) (acc : Z * Z * Z)
  : result (Z * Z * Z) :=
  match data with
  | [] => Ok acc
  | line :: data' =>
      let '(added_loc, deleted_loc, added_commits) := acc in
      match Py.split line with
      | repo_hash :: total_commits :: my_commits :: loc =>
          loc0 ← Py.index loc 0;
          added ← Py.int loc0;
          loc1 ← Py.index loc 1;
          deleted ← Py.int loc1;
          mine ← (if Py.isdigit my_commits then Py.int my_commits else Ok 0);
          archive_totals data'
            (added_loc + added, deleted_loc + deleted, added_commits + mine)
      | _ => Raise ValueError
      end
  end.

(** The [try] block of [add_archive]. *)
Definition read_archive (w : World) : result (list Z) :=
  content ← open_read archive_file w;
  let data := Py.readlines content in
  let old_data := data in
  let data := Py.slice 7 (Z.of_nat (length data) - 3) data in
  let contributed_repos := Z.of_nat (length data) in
  '(added_loc, deleted_loc, added_commits) ← archive_totals data (0, 0, 0);
  trailer ← Py.last_item old_data;
  field ← Py.index (Py.split trailer) 4;
  extra ← Py.int (Py.drop_last field);
  Ok [added_loc; deleted_loc; added_loc - deleted_loc;
      added_commits + extra; contributed_repos].

(** [add_archive]: [except (FileNotFoundError, IndexError)]. *)
Definition add_archive (w : World) : result (list Z) :=
  match read_archive w with
  | Raise FileNotFoundError | Raise IndexError => Ok [0; 0; 0; 0; 0]
  | r => r
  end.

End Manager.

(** ** [export/svg.py]: the commit count read from the ledger *)

Section CommitStats.
Context `{Hashlib, Config}.

(** The loop of lines 65-66 of [svg.py]. *)
Fixpoint sum_commits (data : list string) (total_commits : Z) : result Z :=
  match data with
  | [] => Ok total_commits
  | line :: data' =>
      loc2 ← Py.index (Py.split line) 2;
      mine ← Py.int loc2;
      sum_commits data' (total_commits + mine)
  end.

(** [count_commit_stats]: [except (FileNotFoundError, IndexError)]. *)
Definition count_commit_stats (comment_size : nat) (w : World) : result Z :=
  let username_hash := sha256_hexdigest user_name in
  let cache_file := "cache/" +:+ username_hash +:+ ".txt" in
  let body :=
    content ← open_read cache_file w;
    sum_commits (drop comment_size (Py.readlines content)) 0 in
  match body with
  | Raise FileNotFoundError | Raise IndexError => Ok 0
  | r => r
  end.

End CommitStats.

(** ** [api/operations.py]: the listing of the repositories *)




Section Operations.
Context `{Hashlib, Config}.


End Operations.

(** ** Vocabulary of the properties *)

(** A string without line terminator. *)
Definition no_nl (s : string) : bool :=
  Py.all_chars (λ c, negb (Ascii.eqb c Py.nl)) s.

(** A string without white space. *)
Definition no_space (s : string) : bool :=
  Py.all_chars (λ c, negb (Py.isspace c)) s.

(** A complete line: its only terminator is its last character. *)
Definition terminated (l : string) : Prop :=
  ∃ body, l = body +:+ String Py.nl "" ∧ no_nl body = true.

(** The lists that [readlines] returns: complete lines, the last of
    which may lack its terminator. *)
Inductive lines_ok : list string → Prop :=
| lines_nil : lines_ok []
| lines_last l : l ≠ "" → no_nl l = true → lines_ok [l]
| lines_cons l ls : terminated l → lines_ok ls → lines_ok (l :: ls).

Definition Zsum (l : list Z) : Z := foldr Z.add 0 l.

(** The integer in field [k] of a record line. *)
Definition field (k : nat) (line : string) : option Z :=
  tok ← Py.split line !! k;
  match Py.int tok with
  | Ok z => Some z
  | _ => None
  end.

Definition plus3 (t u : Z * Z * Z) : Z * Z * Z :=
  (t.1.1 + u.1.1, t.1.2 + u.1.2, t.2 + u.2).

(** The response is a page of history [h]. *)
Definition delivers (response : Response) (h : History) : Prop :=
  status_code response = 200 ∧
  json response = Some (mkRepository (Some h)).

(** The response reports a repository without default branch. *)
Definition no_branch (response : Response) : Prop :=
  status_code response = 200 ∧
  json response = Some (mkRepository None).

(** The test of line 55 of [repo_processing.py]. *)
Definition continuing (h : History) : bool :=
  bool_decide (edges h ≠ []) && hasNextPage h.

Definition authors_known (h : History) : Prop :=
  Forall (λ node, author node ≠ None) (edges h).

Section Tally.
Context `{Config}.

(** The commit is by the tracked account. *)
Definition authored (node : CommitNode) : bool :=
  bool_decide (author node = Some owner_id).

(** Additions, deletions and number of the commits of the tracked
    account. *)
Definition tally (nodes : list CommitNode) : Z * Z * Z :=
  let own := List.filter authored nodes in
  (Zsum (additions <$> own), Zsum (deletions <$> own),
   Z.of_nat (length own)).

End Tally.

Section Frame.
Context `{Hashlib, Config}.

(** Iteration [i] of the loop does nothing when it finds [line] at
    position [i]: no request, no write, the lines as they were. *)
Definition untouched_at (i : nat) (edge : RepoEdge)
    (cache_comment : list string) (line : string) : Prop :=
  ∀ data remote w,
    data !! i = Some line →
    update_record i edge cache_comment data remote w
    = (Ok data, remote, w).

End Frame.

(** The response carries what the walk reads: a repository, and an
    author object on every commit. *)
Definition well_formed (response : Response) : Prop :=
  status_code response = 200 →
  ∃ repo, json response = Some repo ∧
          ∀ h, defaultBranchRef repo = Some h → authors_known h.

Section Settled.
Context `{Hashlib}.

(** The record [line] needs no walk for [edge]: its hash is another
    one, or its commit total is the live one. *)
Definition settled (edge : RepoEdge) (line : string) : Prop :=
  ∃ repo_hash commit_count more,
    Py.split line = repo_hash :: commit_count :: more ∧
    (repo_hash ≠ sha256_hexdigest (nameWithOwner edge) ∨
     ∃ total, totalCount edge = Some total ∧
              Py.int commit_count = Ok total).

End Settled.

(** A token: no white space, not empty. *)
Definition token (s : string) : Prop := no_space s = true ∧ s ≠ "".

(** One more query named [name] in the counters. *)
Definition bump (name : string) (qc : gmap string nat) : gmap string nat :=
  match qc !! name with
  | Some n => <[name := S n]> qc
  | None => qc
  end.

(** Between [w] and [w'], [n] history requests have left, and nothing
    else has moved the log or the counters. *)
Definition asked (n : nat) (w w' : World) : Prop :=
  ∃ rqs,
    length rqs = n ∧
    sent w' = sent w ++ rqs ∧
    Forall (λ rq, query_name rq = "recursive_loc") rqs ∧
    query_count w' = Nat.iter n (bump "recursive_loc") (query_count w).

(** The requests that were not answered: one when the run stalled. *)
Definition pending {A} (r : result A) : nat :=
  match r with
  | Stalled => 1
  | _ => 0
  end.


(** The commits that a line of the archive adds: field 2 when it is
    made of digits. *)
Definition archived_commits (line : string) : option Z :=
  tok ← Py.split line !! 2%nat;
  if Py.isdigit tok
  then match Py.int tok with
       | Ok z => Some z
       | _ => None
       end
  else Some 0.

(** ** Worked examples: data *)

Module Examples.

Definition hex_char (n : N) : ascii :=
  match n with
  | 0 => "0" | 1 => "1" | 2 => "2" | 3 => "3" | 4 => "4" | 5 => "5"
  | 6 => "6" | 7 => "7" | 8 => "8" | 9 => "9" | 10 => "a" | 11 => "b"
  | 12 => "c" | 13 => "d" | 14 => "e" | _ => "f"
  end%N%char.

(** A stand-in for the digest in the examples: the hexadecimal spelling
    of the characters of the name. *)
Fixpoint hex_spelling (s : string) : string :=
  match s with
  | "" => ""
  | String c r =>
      let n := N_of_ascii c in
      String (hex_char (n / 16)) (String (hex_char (n mod 16)) (hex_spelling r))
  end.

Definition toy : Hashlib := hex_spelling.

Definition cfg : Config := mkConfig "me" (Some "ME").

Definition line (s : string) : string := s +:+ String Py.nl "".

Definition world0 (files : gmap string string) : World :=
  mkWorld files {["recursive_loc" := 0%nat]} [] [].

Definition mine (a d : Z) : CommitNode := mkCommit (Some (Some "ME")) a d.
Definition theirs (a d : Z) : CommitNode := mkCommit (Some (Some "YOU")) a d.

Definition page (nodes : list CommitNode) (more : bool) (cur : option string)
  : Response :=
  mkResponse 200 "" (Some (mkRepository (Some (mkHistory nodes more cur)))).

Definition branchless : Response :=
  mkResponse 200 "" (Some (mkRepository None)).

Definition rate_limited : Response := mkResponse 403 "" None.

Definition loc_request (repo_name : string) (cursor : option string)
  : Request :=
  mkRequest "recursive_loc" repo_name "o" cursor.

(** The ledger of two repositories, the second one behind the remote. *)
Definition manager : CacheManager := @new_CacheManager toy "me".

Definition repos : list RepoEdge :=
  [mkRepoEdge "o/a" (Some 3); mkRepoEdge "o/b" (Some 2)].

Definition ledger : string :=
  line "# header" +:+ line "6f2f61 3 1 10 2" +:+ line "6f2f62 0 0 0 0".

Definition disk : World := world0 {[ cache_file manager := ledger ]}.

Definition two_pages : Remote :=
  [page [mine 5 1; theirs 7 7] true (Some "c1"); page [mine 1 1] false None].

Definition failing : Remote :=
  [page [mine 5 1; theirs 7 7] true (Some "c1"); rate_limited].

(** A ledger whose first record carries a foreign hash. *)
Definition foreign_ledger : string :=
  line "# header" +:+ line "ffff 9 1 10 2" +:+ line "6f2f62 2 1 1 1".

(** A ledger that lacks the record of the second repository. *)
Definition short_ledger : string :=
  line "# header" +:+ line "6f2f61 3 1 10 2".

(** Three repositories: the first is behind the remote, the walk of the
    second fails, the third is never reached. *)
Definition three_repos : list RepoEdge :=
  [mkRepoEdge "o/a" (Some 1); mkRepoEdge "o/b" (Some 2);
   mkRepoEdge "o/c" (Some 9)].

Definition three_ledger : string :=
  line "# header" +:+ line "6f2f61 0 0 0 0" +:+ line "6f2f62 0 0 0 0"
    +:+ line "6f2f63 7 1 1 1".

Definition fails_at_second : Remote :=
  [page [mine 4 2] false None; rate_limited].

(** Repositories that need no walk. *)
Definition idle_repos : list RepoEdge :=
  [mkRepoEdge "o/a" (Some 0); mkRepoEdge "o/b" None].


(** A ledger that needs no walk: the first record is up to date, the
    second one carries a foreign hash. *)
Definition settled_ledger : string :=
  line "# header" +:+ line "6f2f61 3 1 10 2" +:+ line "ffff 9 1 1 1".

(** A ledger whose record has a commit total that is no number. *)
Definition odd_ledger : string :=
  line "# header" +:+ line "6f2f61 many 1 10 2".

Definition branchless_repos : list RepoEdge := [mkRepoEdge "o/a" None].

(** A reply without repository. *)
Definition no_repository : Response := mkResponse 200 "" None.



(** An archive of seven header lines, two records and three trailer
    lines. *)
Definition archive_head : list string := replicate 7 (line "#").

Definition archive_records : list string :=
  [line "h1 5 1 10 2"; line "h2 3 x 5 1"].

Definition archive_tail : list string :=
  [line "-"; line "-"; line "total: a b c 7,"].

Definition good_archive : string :=
  Py.writelines (archive_head ++ archive_records ++ archive_tail).

End Examples.

Import Examples.


(** * Properties *)

(** ** Strings and lines *)

Section StringFacts.

Lemma sapp_cons c s t : String c s +:+ t = String c (s +:+ t).
Proof. reflexivity. Qed.

Lemma sapp_nil_l s : "" +:+ s = s.
Proof. reflexivity. Qed.

Lemma sapp_nil_r s : s +:+ "" = s.
Proof. induction s as [|c s IH]; [done|]. by rewrite sapp_cons, IH. Qed.

Lemma sapp_assoc s t u : (s +:+ t) +:+ u = s +:+ (t +:+ u).
Proof. induction s as [|c s IH]; [done|]. by rewrite !sapp_cons, IH. Qed.

Lemma all_chars_app p s t :
  Py.all_chars p (s +:+ t) = Py.all_chars p s && Py.all_chars p t.
Proof.
  induction s as [|c s IH]; [done|].
  rewrite sapp_cons. simpl. rewrite IH. by rewrite andb_assoc.
Qed.

Lemma all_chars_impl (p q : ascii → bool) s :
  (∀ c, p c = true → q c = true) →
  Py.all_chars p s = true → Py.all_chars q s = true.
Proof.
  intros Hpq. induction s as [|c s IH]; [done|]. simpl.
  intros [Hc Hs]%andb_true_iff. rewrite (Hpq _ Hc). simpl. auto.
Qed.

Lemma no_space_no_nl s : no_space s = true → no_nl s = true.
Proof.
  apply all_chars_impl. intros c Hc.
  destruct (Ascii.eqb_spec c Py.nl) as [->|]; [done|done].
Qed.

Lemma writelines_app a b :
  Py.writelines (a ++ b) = Py.writelines a +:+ Py.writelines b.
Proof.
  induction a as [|l a IH]; [done|].
  simpl. unfold Py.writelines in *. simpl. by rewrite IH, sapp_assoc.
Qed.

Lemma writelines_readlines s : Py.writelines (Py.readlines s) = s.
Proof.
  induction s as [|c s IH]; [done|]. simpl.
  destruct (Ascii.eqb_spec c Py.nl) as [->|Hc].
  - unfold Py.writelines in *. simpl. by rewrite IH.
  - destruct (Py.readlines s) as [|l ls].
    + unfold Py.writelines in *. simpl in *. by rewrite <- IH.
    + unfold Py.writelines in *. simpl in *. by rewrite sapp_cons, IH.
Qed.

Lemma readlines_line body rest :
  no_nl body = true →
  Py.readlines (body +:+ String Py.nl rest)
  = (body +:+ String Py.nl "") :: Py.readlines rest.
Proof.
  induction body as [|c body IH]; intros Hb.
  - done.
  - simpl in Hb. apply andb_true_iff in Hb as [Hc Hb].
    rewrite !sapp_cons. simpl.
    destruct (Ascii.eqb c Py.nl); [done|].
    by rewrite (IH Hb).
Qed.

Lemma readlines_partial l :
  l ≠ "" → no_nl l = true → Py.readlines l = [l].
Proof.
  induction l as [|c l IH]; [done|]. intros _ Hl.
  simpl in Hl. apply andb_true_iff in Hl as [Hc Hl]. simpl.
  destruct (Ascii.eqb c Py.nl); [done|].
  destruct l as [|c' l]; [done|].
  by rewrite IH.
Qed.

Lemma readlines_writelines ls :
  lines_ok ls → Py.readlines (Py.writelines ls) = ls.
Proof.
  induction 1 as [|l Hne Hl|l ls [body [-> Hb]] Hls IH].
  - done.
  - unfold Py.writelines. simpl. rewrite sapp_nil_r.
    by apply readlines_partial.
  - unfold Py.writelines in *. simpl.
    rewrite sapp_assoc, sapp_cons, sapp_nil_l.
    by rewrite readlines_line, IH.
Qed.

Lemma terminated_cons c l :
  c ≠ Py.nl → terminated l → terminated (String c l).
Proof.
  intros Hc (body & -> & Hb). exists (String c body). split; [done|].
  unfold no_nl in *. simpl. rewrite Hb.
  by destruct (Ascii.eqb_spec c Py.nl).
Qed.

Lemma readlines_lines_ok s : lines_ok (Py.readlines s).
Proof.
  induction s as [|c s IH]; [constructor|]. simpl.
  destruct (Ascii.eqb_spec c Py.nl) as [->|Hc].
  - apply lines_cons; [|done]. by exists "".
  - destruct (Py.readlines s) as [|l ls].
    + apply lines_last; [done|]. unfold no_nl. simpl.
      by destruct (Ascii.eqb_spec c Py.nl).
    + inversion IH as [|l' Hne Hl|l' ls' Hl Hls]; subst.
      * apply lines_last; [done|]. unfold no_nl in *. simpl.
        rewrite Hl. by destruct (Ascii.eqb_spec c Py.nl).
      * apply lines_cons; [|done]. by apply terminated_cons.
Qed.

Lemma lines_ok_insert ls i x :
  lines_ok ls → terminated x → lines_ok (<[i:=x]> ls).
Proof.
  intros Hls Hx. revert i.
  induction Hls as [|l Hne Hl|l ls Ht Hls IH]; intros i.
  - constructor.
  - destruct i; simpl.
    + apply lines_cons; [done|constructor].
    + by apply lines_last.
  - destruct i; simpl.
    + by apply lines_cons.
    + apply lines_cons; [done|apply IH].
Qed.

Lemma split_go_tokens s : ∀ tok t,
  no_space tok = true → t ∈ Py.split_go tok s →
  no_space t = true ∧ t ≠ "".
Proof.
  induction s as [|c s IH]; intros tok t Htok Hin; simpl in Hin.
  - destruct tok; [by apply elem_of_nil in Hin|].
    apply list_elem_of_singleton in Hin as ->. done.
  - destruct (Py.isspace c) eqn:Hc.
    + destruct tok as [|c' tok]; [by apply (IH "")|].
      apply elem_of_cons in Hin as [->|Hin]; [done|by apply (IH "")].
    + apply (IH (tok +:+ String c "")); [|done].
      unfold no_space in *. rewrite all_chars_app, Htok. simpl.
      by rewrite Hc.
Qed.

Lemma split_tokens s t :
  t ∈ Py.split s → no_space t = true ∧ t ≠ "".
Proof. by apply split_go_tokens. Qed.

Lemma split_head_no_nl s t ts : Py.split s = t :: ts → no_nl t = true.
Proof.
  intros Hs. apply no_space_no_nl, (split_tokens s).
  rewrite Hs. left.
Qed.

Lemma string_of_uint_no_space d :
  no_space (NilEmpty.string_of_uint d) = true.
Proof. induction d; simpl; done. Qed.

Lemma str_no_space z : no_space (Py.str z) = true.
Proof.
  unfold Py.str, NilZero.string_of_int, NilZero.string_of_uint.
  destruct (Z.to_int z) as [d|d]; destruct d; simpl;
    first [done | apply string_of_uint_no_space].
Qed.

Lemma str_no_nl z : no_nl (Py.str z) = true.
Proof. apply no_space_no_nl, str_no_space. Qed.

Lemma no_nl_app s t : no_nl (s +:+ t) = no_nl s && no_nl t.
Proof. apply all_chars_app. Qed.

Lemma terminated_sentinel h : no_nl h = true → terminated (sentinel h).
Proof.
  intros Hh. exists (h +:+ " 0 0 0 0"). split.
  - unfold sentinel. by rewrite sapp_assoc.
  - by rewrite no_nl_app, Hh.
Qed.

Lemma terminated_record_line h n loc :
  no_nl h = true → terminated (record_line h n loc).
Proof.
  intros Hh. destruct loc as [[a d] m]. unfold record_line.
  exists (h +:+ " " +:+ Py.str n +:+ " " +:+ Py.str m +:+ " "
            +:+ Py.str a +:+ " " +:+ Py.str d).
  split.
  - by rewrite !sapp_assoc.
  - rewrite !no_nl_app, Hh, !str_no_nl. done.
Qed.

Lemma int_raise s e : Py.int s = Raise e → e = ValueError.
Proof. unfold Py.int. repeat case_match; congruence. Qed.

Lemma int_not_stalled s : Py.int s ≠ Stalled.
Proof. unfold Py.int. repeat case_match; congruence. Qed.

End StringFacts.

(** ** The history walk *)

Global Arguments post : simpl never.
Global Arguments force_close_file : simpl never.
Global Arguments open_write : simpl never.
Global Arguments field : simpl never.
Global Arguments archived_commits : simpl never.

Section WalkFacts.
Context `{Hashlib, Config}.

Lemma fs_post rq w : fs (post rq w) = fs w.
Proof.
  unfold post, increment_query_count.
  by destruct (query_count w !! query_name rq).
Qed.

Lemma sent_post rq w : sent (post rq w) = sent w ++ [rq].
Proof.
  unfold post, increment_query_count.
  by destruct (query_count w !! query_name rq).
Qed.

Lemma fs_force_close_file data cc w :
  fs (force_close_file data cc w)
  = <[cache_path user_name := Py.writelines cc +:+ Py.writelines data]> (fs w).
Proof. reflexivity. Qed.

Lemma sent_force_close_file data cc w :
  sent (force_close_file data cc w) = sent w.
Proof. reflexivity. Qed.

(** The walk is [execute_query] followed by the body of the [try]
    block, under the [except] clause. *)
Lemma process_loc_for_repo_eq owner repo_name data cc cursor totals remote w :
  process_loc_for_repo owner repo_name data cc cursor totals remote w
  = on_api_error data cc
      match execute_query
              (mkRequest "recursive_loc" repo_name owner cursor) remote w with
      | (Ok None, remote', w') => (Raise TypeError, remote', w')
      | (Ok (Some repo_data), remote', w') =>
          match defaultBranchRef repo_data with
          | None => (Ok totals, remote', w')
          | Some history =>
              match count_commits (edges history) totals with
              | Ok totals' =>
                  if continuing history
                  then process_loc_for_repo owner repo_name data cc
                         (endCursor history) totals' remote' w'
                  else (Ok totals', remote', w')
              | Raise e => (Raise e, remote', w')
              | Stalled => (Stalled, remote', w')
              end
          end
      | (Raise e, remote', w') => (Raise e, remote', w')
      | (Stalled, remote', w') => (Stalled, remote', w')
      end.
Proof. destruct remote; reflexivity. Qed.

Lemma plus3_zero t : plus3 t (0, 0, 0) = t.
Proof. destruct t as [[a d] m]. unfold plus3. simpl. f_equal; [f_equal|]; lia. Qed.

Lemma plus3_assoc t u v : plus3 (plus3 t u) v = plus3 t (plus3 u v).
Proof.
  destruct t as [[? ?] ?], u as [[? ?] ?], v as [[? ?] ?].
  unfold plus3. simpl. f_equal; [f_equal|]; lia.
Qed.

Lemma tally_nil : tally [] = (0, 0, 0).
Proof. reflexivity. Qed.

Lemma tally_cons node nodes :
  tally (node :: nodes)
  = if authored node
    then plus3 (additions node, deletions node, 1) (tally nodes)
    else tally nodes.
Proof.
  unfold tally. simpl. destruct (authored node); [|done].
  unfold plus3. simpl. f_equal. lia.
Qed.

Lemma tally_app a b : tally (a ++ b) = plus3 (tally a) (tally b).
Proof.
  induction a as [|node a IH].
  - rewrite tally_nil. simpl. by destruct (tally b) as [[? ?] ?].
  - simpl. rewrite !tally_cons. destruct (authored node); [|done].
    by rewrite IH, plus3_assoc.
Qed.

(** The loop over a page adds the commits of the tracked account and
    no other. *)
Lemma count_commits_tally nodes : ∀ totals,
  Forall (λ node, author node ≠ None) nodes →
  count_commits nodes totals = Ok (plus3 totals (tally nodes)).
Proof.
  induction nodes as [|node nodes IH]; intros totals Hk.
  - by rewrite tally_nil, plus3_zero.
  - inversion Hk as [|? ? Hnode Hnodes]; subst.
    destruct totals as [[a d] m]. simpl.
    rewrite tally_cons. unfold authored.
    destruct (author node) as [user|] eqn:Hu; [|done].
    destruct (decide (user = owner_id)) as [->|Hne].
    + rewrite bool_decide_eq_true_2 by done.
      rewrite IH by done. rewrite <- plus3_assoc. done.
    + rewrite bool_decide_eq_false_2 by congruence.
      by rewrite IH.
Qed.

Lemma count_commits_ok nodes : ∀ totals totals',
  count_commits nodes totals = Ok totals' →
  Forall (λ node, author node ≠ None) nodes.
Proof.
  induction nodes as [|node nodes IH]; intros totals totals' Hc; [done|].
  destruct totals as [[a d] m]. simpl in Hc.
  destruct (author node) as [user|] eqn:Hu; [|done].
  constructor; [congruence|].
  destruct (decide (user = owner_id)); eauto.
Qed.

Lemma handle_response_200 rq response :
  status_code response = 200 →
  handle_response rq response = Ok (json response).
Proof. intros Hs. unfold handle_response. by rewrite Hs. Qed.

Lemma handle_response_failure rq response :
  status_code response ≠ 200 →
  ∃ msg, handle_response rq response = Raise (APIError msg).
Proof.
  intros Hs. unfold handle_response.
  destruct (Z.eqb_spec (status_code response) 200); [done|].
  destruct (status_code response =? 403); eauto.
Qed.

Section Step.
Variables (owner repo_name : string) (data cc : list string).
Local Abbreviation walk := (process_loc_for_repo owner repo_name data cc).
Local Abbreviation rq cursor :=
  (mkRequest "recursive_loc" repo_name owner cursor).

Lemma walk_nil cursor totals w :
  walk cursor totals [] w = (Stalled, [], post (rq cursor) w).
Proof. reflexivity. Qed.

Lemma walk_cons cursor totals response remote w :
  walk cursor totals (response :: remote) w
  = on_api_error data cc
      match handle_response (rq cursor) response with
      | Ok None => (Raise TypeError, remote, post (rq cursor) w)
      | Ok (Some repo_data) =>
          match defaultBranchRef repo_data with
          | None => (Ok totals, remote, post (rq cursor) w)
          | Some history =>
              match count_commits (edges history) totals with
              | Ok totals' =>
                  if continuing history
                  then walk (endCursor history) totals' remote
                         (post (rq cursor) w)
                  else (Ok totals', remote, post (rq cursor) w)
              | Raise e => (Raise e, remote, post (rq cursor) w)
              | Stalled => (Stalled, remote, post (rq cursor) w)
              end
          end
      | Raise e => (Raise e, remote, post (rq cursor) w)
      | Stalled => (Stalled, remote, post (rq cursor) w)
      end.
Proof. reflexivity. Qed.

Lemma walk_no_branch cursor totals response remote w :
  no_branch response →
  walk cursor totals (response :: remote) w
  = (Ok totals, remote, post (rq cursor) w).
Proof.
  intros [Hs Hj]. simpl. by rewrite handle_response_200, Hj.
Qed.

Lemma walk_last_page cursor totals response h remote w :
  delivers response h → authors_known h → continuing h = false →
  walk cursor totals (response :: remote) w
  = (Ok (plus3 totals (tally (edges h))), remote, post (rq cursor) w).
Proof.
  intros [Hs Hj] Hk Hc. simpl. rewrite handle_response_200, Hj by done.
  simpl. rewrite count_commits_tally by done.
  unfold continuing in Hc. by rewrite Hc.
Qed.

Lemma walk_next_page cursor totals response h remote w :
  delivers response h → authors_known h → continuing h = true →
  walk cursor totals (response :: remote) w
  = on_api_error data cc
      (walk (endCursor h) (plus3 totals (tally (edges h))) remote
         (post (rq cursor) w)).
Proof.
  intros [Hs Hj] Hk Hc. simpl. rewrite handle_response_200, Hj by done.
  simpl. rewrite count_commits_tally by done.
  unfold continuing in Hc. by rewrite Hc.
Qed.

Lemma walk_failure cursor totals response remote w :
  status_code response ≠ 200 →
  ∃ msg,
    walk cursor totals (response :: remote) w
    = (Raise (APIError msg), remote,
       force_close_file data cc (post (rq cursor) w)).
Proof.
  intros Hs. simpl.
  destruct (handle_response_failure (rq cursor) response Hs) as [msg ->].
  by exists msg.
Qed.

(** The first request of a walk always leaves. *)
Lemma walk_sent remote : ∀ cursor totals w,
  ∃ more,
    sent (walk cursor totals remote w).2 = sent w ++ rq cursor :: more.
Proof.
  induction remote as [|response remote IH]; intros cursor totals w.
  - exists []. rewrite walk_nil. apply sent_post.
  - assert (∀ o : Outcome (Z * Z * Z),
              sent (on_api_error data cc o).2 = sent o.2) as Hh.
    { intros [[[t|[]|] r'] w']; done. }
    rewrite walk_cons, Hh.
    destruct (handle_response (rq cursor) response) as [[repo|]|e|];
      try (exists []; apply sent_post).
    destruct (defaultBranchRef repo) as [h|];
      [|exists []; apply sent_post].
    destruct (count_commits (edges h) totals) as [totals'|e|];
      try (exists []; apply sent_post).
    destruct (continuing h); [|exists []; apply sent_post].
    destruct (IH (endCursor h) totals' (post (rq cursor) w)) as [more Hm].
    exists (rq (endCursor h) :: more).
    rewrite Hm, sent_post, <- app_assoc. done.
Qed.

(** Only the recovery path touches the file system, and it leaves the
    ledger as [cc] followed by [data]. *)
Lemma walk_fs remote : ∀ cursor totals w,
  match walk cursor totals remote w with
  | (Raise (APIError _), _, w') =>
      fs w' = <[cache_path user_name
                  := Py.writelines cc +:+ Py.writelines data]> (fs w)
  | (_, _, w') => fs w' = fs w
  end.
Proof.
  induction remote as [|response remote IH]; intros cursor totals w.
  - rewrite walk_nil. apply fs_post.
  - rewrite walk_cons.
    assert (∀ e : exn,
      match on_api_error data cc (Raise e, remote, post (rq cursor) w) with
      | (Raise (APIError _), _, w') =>
          fs w' = <[cache_path user_name
                      := Py.writelines cc +:+ Py.writelines data]> (fs w)
      | (_, _, w') => fs w' = fs w
      end) as Hraise.
    { intros []; unfold on_api_error; rewrite ?fs_force_close_file;
        by rewrite fs_post. }
    destruct (handle_response (rq cursor) response) as [[repo|]|e|];
      [|apply Hraise|apply Hraise|apply fs_post].
    destruct (defaultBranchRef repo) as [h|]; [|apply fs_post].
    destruct (count_commits (edges h) totals) as [totals'|e|];
      [|apply Hraise|apply fs_post].
    destruct (continuing h); [|apply fs_post].
    specialize (IH (endCursor h) totals' (post (rq cursor) w)).
    destruct (walk (endCursor h) totals' remote (post (rq cursor) w))
      as [[[t|e|] r'] w']; unfold on_api_error.
    + by rewrite IH, fs_post.
    + destruct e; rewrite ?fs_force_close_file, IH, ?fs_post; try done.
      by rewrite insert_insert_eq.
    + by rewrite IH, fs_post.
Qed.

End Step.

End WalkFacts.

(** ** The loop over the repositories *)

Section LedgerFacts.
Context `{Hashlib, Config}.
Variable cc : list string.

Ltac open_update Hu :=
  unfold update_record, on_type_error, Py.index in Hu;
  repeat case_match; simplify_eq.

(** An iteration returns the lines as they were, or with the line at
    its own position replaced by a complete line. *)
Lemma update_record_ok i edge data remote w data' remote' w' :
  update_record i edge cc data remote w = (Ok data', remote', w') →
  data' = data ∨ ∃ x, terminated x ∧ data' = <[i:=x]> data.
Proof.
  intros Hu. open_update Hu; eauto;
    right; eexists; (split; [|reflexivity]);
    first [apply terminated_sentinel | apply terminated_record_line];
    eapply split_head_no_nl; eassumption.
Qed.

Lemma update_record_length i edge data remote w data' remote' w' :
  update_record i edge cc data remote w = (Ok data', remote', w') →
  length data' = length data.
Proof.
  intros [->|(x & _ & ->)]%update_record_ok; [done|apply length_insert].
Qed.

Lemma update_record_other i edge data remote w data' remote' w' j :
  update_record i edge cc data remote w = (Ok data', remote', w') →
  j ≠ i → data' !! j = data !! j.
Proof.
  intros [->|(x & _ & ->)]%update_record_ok Hj; [done|].
  by apply list_lookup_insert_ne.
Qed.

Lemma lines_ok_insert_app l1 l2 i x :
  lines_ok (l1 ++ l2) → terminated x → lines_ok (l1 ++ <[i:=x]> l2).
Proof.
  intros Hl Hx. rewrite <- insert_app_r. by apply lines_ok_insert.
Qed.

Lemma update_record_lines i edge data remote w data' remote' w' :
  update_record i edge cc data remote w = (Ok data', remote', w') →
  lines_ok (cc ++ data) → lines_ok (cc ++ data').
Proof.
  intros [->|(x & Hx & ->)]%update_record_ok Hl; [done|].
  by apply lines_ok_insert_app.
Qed.

(** An iteration writes the ledger only on the recovery path of a
    walk, and then as the header followed by the lines it was given. *)
Lemma update_record_fs i edge data remote w :
  match update_record i edge cc data remote w with
  | (Raise (APIError _), _, w') =>
      fs w' = <[cache_path user_name
                  := Py.writelines cc +:+ Py.writelines data]> (fs w)
  | (_, _, w') => fs w' = fs w
  end.
Proof.
  destruct (update_record i edge cc data remote w)
    as [[out remote'] w'] eqn:Hu.
  unfold update_record, on_type_error, Py.index in Hu.
  repeat case_match; simplify_eq; try done;
    try match goal with
        | Hi : Py.int _ = Raise _ |- _ => by apply int_raise in Hi
        end;
    match goal with
    | Hw : process_loc_for_repo ?o ?r ?d ?c ?cur ?t ?rem ?w0 = _ |- _ =>
        pose proof (walk_fs o r d c rem cur t w0) as Hfs;
        rewrite Hw in Hfs; exact Hfs
    end.
Qed.

Lemma reconcile_app rest1 : ∀ rest2 index data remote w,
  reconcile index (rest1 ++ rest2) cc data remote w
  = match reconcile index rest1 cc data remote w with
    | (Ok data', remote', w') =>
        reconcile (index + length rest1) rest2 cc data' remote' w'
    | out => out
    end.
Proof.
  induction rest1 as [|edge rest1 IH]; intros rest2 index data remote w.
  - simpl. by rewrite Nat.add_0_r.
  - simpl.
    destruct (update_record index edge cc data remote w)
      as [[[data1|e|] remote1] w1]; try done.
    rewrite IH. by rewrite Nat.add_succ_r.
Qed.

(** A loop that does not come to its end stopped in some iteration
    [k], after [k] iterations that all returned. *)
Lemma reconcile_stops rest : ∀ index data remote w out remote' w',
  reconcile index rest cc data remote w = (out, remote', w') →
  (∀ data', out ≠ Ok data') →
  ∃ k edge data_k remote_k w_k,
    rest !! k = Some edge ∧
    reconcile index (take k rest) cc data remote w
    = (Ok data_k, remote_k, w_k) ∧
    update_record (index + k) edge cc data_k remote_k w_k
    = (out, remote', w').
Proof.
  induction rest as [|edge rest IH]; intros index data remote w out remote' w'.
  - simpl. intros [= <- <- <-] Hno. by destruct (Hno data).
  - simpl. intros Hr Hno.
    destruct (update_record index edge cc data remote w)
      as [[[data1|e|] remote1] w1] eqn:Hu.
    + destruct (IH _ _ _ _ _ _ _ Hr Hno)
        as (k & edge' & data_k & remote_k & w_k & Hk & Hpre & Hstep).
      exists (S k), edge', data_k, remote_k, w_k. simpl. rewrite Hu.
      split; [done|]. split; [done|].
      by rewrite Nat.add_succ_r.
    + simplify_eq. exists 0%nat, edge, data, remote, w. simpl.
      by rewrite Nat.add_0_r.
    + simplify_eq. exists 0%nat, edge, data, remote, w. simpl.
      by rewrite Nat.add_0_r.
Qed.

(** What a loop that returns leaves: as many lines, the lines outside
    its range as they were, lines that read back, the files as they
    were. *)
Lemma reconcile_ok rest : ∀ index data remote w data' remote' w',
  reconcile index rest cc data remote w = (Ok data', remote', w') →
  length data' = length data ∧
  (∀ j, (j < index ∨ index + length rest ≤ j)%nat →
        data' !! j = data !! j) ∧
  (lines_ok (cc ++ data) → lines_ok (cc ++ data')) ∧
  fs w' = fs w.
Proof.
  induction rest as [|edge rest IH]; intros index data remote w data' remote' w'.
  - simpl. by intros [= <- <- <-].
  - simpl. intros Hr.
    destruct (update_record index edge cc data remote w)
      as [[[data1|e|] remote1] w1] eqn:Hu; try done.
    destruct (IH _ _ _ _ _ _ _ Hr) as (Hlen & Hout & Hlines & Hfs).
    pose proof (update_record_fs index edge data remote w) as Hfs1.
    rewrite Hu in Hfs1.
    repeat split.
    + rewrite Hlen. by eapply update_record_length.
    + intros j Hj. rewrite Hout by (simpl in Hj; lia).
      eapply update_record_other; [done|]. simpl in Hj. lia.
    + intros Hl. apply Hlines. by eapply update_record_lines.
    + by rewrite Hfs.
Qed.

(** A line at a position whose iteration does nothing is there when the
    loop returns. *)
Lemma reconcile_keeps i line rest : ∀ index data remote w data' remote' w',
  reconcile index rest cc data remote w = (Ok data', remote', w') →
  data !! i = Some line →
  (∀ j edge, rest !! j = Some edge → i = (index + j)%nat →
             untouched_at i edge cc line) →
  data' !! i = Some line.
Proof.
  induction rest as [|edge rest IH]; intros index data remote w data' remote' w'.
  - simpl. by intros [= <- <- <-].
  - simpl. intros Hr Hi Hun.
    destruct (update_record index edge cc data remote w)
      as [[[data1|e|] remote1] w1] eqn:Hu; try done.
    eapply IH; [exact Hr| |].
    + destruct (decide (i = index)) as [->|Hne].
      * rewrite (Hun 0%nat edge) in Hu by (done || lia). by simplify_eq.
      * by rewrite (update_record_other _ _ _ _ _ _ _ _ _ Hu Hne).
    + intros j edge' Hj ->. apply (Hun (S j)); [done|lia].
Qed.

End LedgerFacts.

(** ** Opening and closing the ledger *)

Section BuilderFacts.
Context `{Hashlib, Config}.
Variable self : CacheManager.

Lemma fs_open_write path content w :
  fs (open_write path content w) = <[path := content]> (fs w).
Proof. reflexivity. Qed.

Lemma open_write_twice path c1 c2 w :
  open_write path c2 (open_write path c1 w) = open_write path c2 w.
Proof. unfold open_write. simpl. by rewrite insert_insert_eq. Qed.

Lemma lines_ok_terminated ls : Forall terminated ls → lines_ok ls.
Proof. induction 1; by constructor. Qed.

Lemma terminated_comment_line : terminated comment_line.
Proof.
  exists "This line is a comment block. Write whatever you want here.".
  done.
Qed.

Lemma lines_ok_default_comments n : lines_ok (default_comments n).
Proof.
  apply lines_ok_terminated, Forall_replicate, terminated_comment_line.
Qed.

(** The lines read at the start are those of the file, which exists
    from then on. *)
Lemma read_cache_spec cs w :
  let lines0 := (read_cache self cs w).1 in
  let w0 := (read_cache self cs w).2 in
  lines_ok lines0 ∧
  fs w0 !! cache_file self = Some (Py.writelines lines0) ∧
  w0 = open_write (cache_file self) (Py.writelines lines0) w ∧
  (∀ content, fs w !! cache_file self = Some content →
              lines0 = Py.readlines content ∧ w0 = w) ∧
  (fs w !! cache_file self = None → lines0 = default_comments cs).
Proof.
  unfold read_cache, open_read.
  destruct (fs w !! cache_file self) as [content|] eqn:Hf; simpl.
  - rewrite writelines_readlines. split_and!.
    + apply readlines_lines_ok.
    + done.
    + destruct w as [fsw ? ? ?]. unfold open_write. simpl in *.
      by rewrite insert_id.
    + by intros ? [= <-].
    + done.
  - split_and!; try done.
    + apply lines_ok_default_comments.
    + rewrite ?fs_open_write. apply lookup_insert_eq.
Qed.

Lemma flush_cache_spec edges cs w content :
  fs w !! cache_file self = Some content →
  _flush_cache self edges cs w
  = open_write (cache_file self)
      (Py.writelines (take cs (Py.readlines content))
       +:+ Py.writelines
             ((λ node, sentinel (sha256_hexdigest (nameWithOwner node)))
                <$> edges)) w.
Proof.
  intros Hf. unfold _flush_cache, open_read. rewrite Hf.
  destruct cs; done.
Qed.

Lemma needs_rebuild_false lines cs edges force :
  needs_rebuild lines cs edges force = false
  ↔ length lines = (cs + length edges)%nat ∧ force = false.
Proof.
  unfold needs_rebuild. rewrite orb_false_iff, negb_false_iff, Z.eqb_eq.
  split; intros [? ?]; split; (done || lia).
Qed.

(** Opening the ledger always succeeds; the lines it gives are those of
    the file it leaves. *)
Lemma open_ledger_spec edges cs force w :
  let lines0 := (read_cache self cs w).1 in
  ∃ lines w1,
    open_ledger self edges cs force w
    = (Ok (negb (needs_rebuild lines0 cs edges force), lines), w1) ∧
    lines_ok lines ∧
    w1 = open_write (cache_file self) (Py.writelines lines) w ∧
    (needs_rebuild lines0 cs edges force = false → lines = lines0) ∧
    (needs_rebuild lines0 cs edges force = true →
     lines = Py.readlines
               (Py.writelines (take cs lines0)
                +:+ Py.writelines
                      ((λ node,
                          sentinel (sha256_hexdigest (nameWithOwner node)))
                         <$> edges))).
Proof.
  intros lines0.
  destruct (read_cache_spec cs w) as (Hok & Hfile & Hw0 & _ & _).
  fold lines0 in Hok, Hfile, Hw0.
  unfold open_ledger.
  destruct (read_cache self cs w) as [l0 w0] eqn:Hr. simpl in *.
  subst lines0. unfold check_cache.
  destruct (needs_rebuild l0 cs edges force) eqn:Hn.
  - rewrite (flush_cache_spec _ _ _ _ Hfile).
    unfold open_read. rewrite fs_open_write, lookup_insert_eq.
    rewrite readlines_writelines by done. simpl.
    eexists _, _. split; [reflexivity|].
    split; [apply readlines_lines_ok|].
    rewrite writelines_readlines.
    split; [by rewrite Hw0, open_write_twice|]. done.
  - exists l0, w0. done.
Qed.

Lemma drop_header {A} cs (lines data' : list A) :
  length data' = length (drop cs lines) →
  drop cs (take cs lines ++ data') = data' ∧
  (data' ≠ [] → length (take cs lines) = cs).
Proof.
  intros Hlen. rewrite length_drop in Hlen.
  destruct (decide (cs ≤ length lines)%nat) as [Hle|Hgt].
  - assert (length (take cs lines) = cs) as Ht by (rewrite length_take; lia).
    split; [|done]. by rewrite drop_app_length'.
  - assert (data' = []) as -> by (apply nil_length_inv; lia).
    split; [|done]. rewrite app_nil_r. apply drop_ge.
    rewrite length_take. lia.
Qed.

(** The sums of the closing loop are the sums of fields 3 and 4. *)
Lemma sum_loc_fields data : ∀ la ld a d,
  sum_loc data la ld = Ok (a, d) →
  ∃ adds dels,
    mapM (field 3) data = Some adds ∧
    mapM (field 4) data = Some dels ∧
    a = la + Zsum adds ∧ d = ld + Zsum dels.
Proof.
  induction data as [|line data IH]; intros la ld a d.
  - simpl. intros [= <- <-]. exists [], []. simpl.
    repeat split; try done; lia.
  - simpl. unfold Py.index.
    destruct (Py.split line !! 3%nat) as [t3|] eqn:H3; simpl; [|done].
    destruct (Py.int t3) as [x|e|] eqn:Hx; simpl; [|done|done].
    destruct (Py.split line !! 4%nat) as [t4|] eqn:H4; simpl; [|done].
    destruct (Py.int t4) as [y|e|] eqn:Hy; simpl; [|done|done].
    intros (adds & dels & Ha & Hd & -> & ->)%IH.
    assert (field 3 line = Some x) as Hf3.
    { unfold field. rewrite H3. simpl. by rewrite Hx. }
    assert (field 4 line = Some y) as Hf4.
    { unfold field. rewrite H4. simpl. by rewrite Hy. }
    exists (x :: adds), (y :: dels). simpl.
    rewrite Hf3, Hf4, Ha, Hd. simpl.
    split_and!; try done; lia.
Qed.

Lemma sum_loc_raise data : ∀ la ld e,
  sum_loc data la ld = Raise e → e = IndexError ∨ e = ValueError.
Proof.
  induction data as [|line data IH]; intros la ld e; [done|].
  simpl. unfold Py.index.
  destruct (Py.split line !! 3%nat) as [t3|]; simpl;
    [|intros [= <-]; by left].
  destruct (Py.int t3) as [x|e'|] eqn:Hx; simpl;
    [|intros [= <-]; right; by eapply int_raise|done].
  destruct (Py.split line !! 4%nat) as [t4|]; simpl;
    [|intros [= <-]; by left].
  destruct (Py.int t4) as [y|e'|] eqn:Hy; simpl;
    [|intros [= <-]; right; by eapply int_raise|done].
  apply IH.
Qed.

(** What a run that returns has done. *)
Lemma build_from_ok edges cs la ld cached lines remote w1
    a d n flag remote' w' :
  build_from self edges cs la ld cached lines remote w1
  = (Ok (a, d, n, flag), remote', w') →
  ∃ data' w2,
    reconcile 0 edges (take cs lines) (drop cs lines) remote w1
    = (Ok data', remote', w2) ∧
    w' = open_write (cache_file self)
           (Py.writelines (take cs lines) +:+ Py.writelines data') w2 ∧
    sum_loc data' la ld = Ok (a, d) ∧
    n = a - d ∧ flag = cached.
Proof.
  unfold build_from.
  destruct (reconcile 0 edges (take cs lines) (drop cs lines) remote w1)
    as [[[data'|e|] r2] w2]; try done.
  destruct (sum_loc data' la ld) as [[a' d']|e|] eqn:Hs; try done.
  intros [= <- <- <- <- <- <-]. by exists data', w2.
Qed.

End BuilderFacts.

(** ** Properties of the ledger *)

Section LedgerClaims.
Context `{Hashlib, Config}.
Variable self : CacheManager.

Lemma cache_builder_eq edges cs force la ld remote w cached lines w1 :
  open_ledger self edges cs force w = (Ok (cached, lines), w1) →
  cache_builder self edges cs force la ld remote w
  = build_from self edges cs la ld cached lines remote w1.
Proof. intros Ho. unfold cache_builder. by rewrite Ho. Qed.

(** C2. When the number of lines after the header differs from the
    number of repositories, or a rebuild is forced, [cache_builder]
    rewrites the ledger file, before the loop over the repositories
    starts, to the header lines it found (the first [comment_size]
    lines) followed by one line [<hash> 0 0 0 0] per repository, in the
    order of the list.  When the header is complete, the records the
    loop then starts from are exactly these lines. *)
Theorem rebuild_writes_sentinels edges cs force la ld remote w :
  let lines0 := (read_cache self cs w).1 in
  let header := take cs lines0 in
  let sentinels :=
    (λ node, sentinel (sha256_hexdigest (nameWithOwner node))) <$> edges in
  let content := Py.writelines header +:+ Py.writelines sentinels in
  length (drop cs lines0) ≠ length edges ∨ force = true →
  open_ledger self edges cs force w
  = (Ok (false, Py.readlines content),
     open_write (cache_file self) content w) ∧
  cache_builder self edges cs force la ld remote w
  = build_from self edges cs la ld false (Py.readlines content) remote
      (open_write (cache_file self) content w) ∧
  ((∀ name, no_nl (sha256_hexdigest name) = true) →
   Forall terminated header → length header = cs →
   take cs (Py.readlines content) = header ∧
   drop cs (Py.readlines content) = sentinels).
Proof.
  intros lines0 header sentinels content Hcond.
  assert (needs_rebuild lines0 cs edges force = true) as Hn.
  { destruct (needs_rebuild lines0 cs edges force) eqn:Hn; [done|].
    apply needs_rebuild_false in Hn as [Hlen ->].
    rewrite length_drop in Hcond. destruct Hcond; [lia|done]. }
  destruct (open_ledger_spec self edges cs force w)
    as (lines & w1 & Hopen & Hok & Hw1 & _ & Hre).
  fold lines0 in Hopen, Hre. rewrite Hn in Hopen. simpl in Hopen.
  specialize (Hre Hn). fold header sentinels content in Hre. subst lines.
  rewrite writelines_readlines in Hw1. subst w1.
  split; [done|]. split; [by apply cache_builder_eq|].
  intros Hhash Hheader Hlen.
  assert (Py.readlines content = header ++ sentinels) as ->.
  { unfold content. rewrite <- writelines_app.
    apply readlines_writelines, lines_ok_terminated, Forall_app.
    split; [done|]. unfold sentinels. apply Forall_fmap, Forall_forall.
    intros node _. apply terminated_sentinel, Hhash. }
  by rewrite take_app_length', drop_app_length'.
Qed.

(** C5, as the code has it.  The flag that [cache_builder] returns is
    true exactly when the run did not rebuild the ledger: the lines it
    read were as many as the header and the repositories together, and
    no rebuild was forced.  Walks made by the loop leave it true. *)
Theorem cached_flag_reports_no_rebuild
    edges cs force la ld remote w a d n cached remote' w' :
  cache_builder self edges cs force la ld remote w
  = (Ok (a, d, n, cached), remote', w') →
  let lines0 := (read_cache self cs w).1 in
  cached = true
  ↔ length lines0 = (cs + length edges)%nat ∧ force = false.
Proof.
  intros Hrun lines0.
  destruct (open_ledger_spec self edges cs force w)
    as (lines & w1 & Hopen & _).
  rewrite (cache_builder_eq _ _ _ _ _ _ _ _ _ _ Hopen) in Hrun.
  apply build_from_ok in Hrun as (_ & _ & _ & _ & _ & _ & ->).
  fold lines0. rewrite negb_true_iff. apply needs_rebuild_false.
Qed.

(** C8. The additions and deletions that [cache_builder] returns are
    the initial values plus the sums of fields 3 and 4 over all the
    record lines of the ledger file as the run leaves it (the lines
    after the header), and the third element is their difference. *)
Theorem totals_sum_final_ledger
    edges cs force la ld remote w a d n cached remote' w' :
  cache_builder self edges cs force la ld remote w
  = (Ok (a, d, n, cached), remote', w') →
  ∃ content adds dels,
    fs w' !! cache_file self = Some content ∧
    mapM (field 3) (drop cs (Py.readlines content)) = Some adds ∧
    mapM (field 4) (drop cs (Py.readlines content)) = Some dels ∧
    a = la + Zsum adds ∧
    d = ld + Zsum dels ∧
    n = a - d.
Proof.
  intros Hrun.
  destruct (open_ledger_spec self edges cs force w)
    as (lines & w1 & Hopen & Hok & _).
  rewrite (cache_builder_eq _ _ _ _ _ _ _ _ _ _ Hopen) in Hrun.
  apply build_from_ok in Hrun as (data' & w2 & Hrec & -> & Hsum & -> & _).
  destruct (reconcile_ok _ _ _ _ _ _ _ _ _ Hrec) as (Hlen & _ & Hlines & _).
  destruct (sum_loc_fields _ _ _ _ _ Hsum) as (adds & dels & Ha & Hd & -> & ->).
  exists (Py.writelines (take cs lines) +:+ Py.writelines data'), adds, dels.
  rewrite fs_open_write, lookup_insert_eq.
  rewrite <- writelines_app, readlines_writelines
    by (apply Hlines; by rewrite take_drop).
  destruct (drop_header cs lines data' Hlen) as [-> _].
  done.
Qed.

(** The line of a position whose iteration does nothing is in the
    ledger file however the run ends, and no request leaves for it. *)
Lemma untouched_record
    edges cs force la ld remote w cached lines w1 i edge line :
  open_ledger self edges cs force w = (Ok (cached, lines), w1) →
  edges !! i = Some edge →
  drop cs lines !! i = Some line →
  untouched_at i edge (take cs lines) line →
  (∀ data_i remote_i w_i,
     reconcile 0 (take i edges) (take cs lines) (drop cs lines) remote w1
     = (Ok data_i, remote_i, w_i) →
     update_record i edge (take cs lines) data_i remote_i w_i
     = (Ok data_i, remote_i, w_i)) ∧
  (∀ out remote' w',
     cache_builder self edges cs force la ld remote w = (out, remote', w') →
     ∃ content, fs w' !! cache_file self = Some content ∧
                Py.readlines content !! (cs + i)%nat = Some line) ∧
  (cached = true →
   ∃ content0, fs w !! cache_file self = Some content0 ∧
               Py.readlines content0 !! (cs + i)%nat = Some line).
Proof.
  intros Hopen Hedge Hline Hun.
  destruct (open_ledger_spec self edges cs force w)
    as (lines' & w1' & Hopen' & Hok & Hw1 & Hsame & _).
  rewrite Hopen in Hopen'. injection Hopen' as Hcached <- <-.
  set (cc := take cs lines) in *. set (data0 := drop cs lines) in *.
  assert (length cc = cs) as Hcc.
  { apply lookup_lt_Some in Hline. unfold data0 in Hline.
    rewrite length_drop in Hline. unfold cc. rewrite length_take. lia. }
  assert (∀ k data_k remote_k w_k,
            reconcile 0 (take k edges) cc data0 remote w1
            = (Ok data_k, remote_k, w_k) →
            data_k !! i = Some line) as Hpre.
  { intros k data_k remote_k w_k Hrec.
    eapply reconcile_keeps; [exact Hrec|done|].
    intros j edge' [Hj _]%lookup_take_Some ->. simpl in *.
    by replace edge' with edge by congruence. }
  assert (∀ data', lines_ok (cc ++ data') → data' !! i = Some line →
            Py.readlines (Py.writelines cc +:+ Py.writelines data')
              !! (cs + i)%nat = Some line) as Hread.
  { intros data' Hl Hd.
    rewrite <- writelines_app, readlines_writelines by done.
    rewrite <- Hcc. by rewrite lookup_app_r, Nat.add_comm, Nat.add_sub by lia. }
  assert (lines_ok (cc ++ data0)) as Hok0.
  { unfold cc, data0. by rewrite take_drop. }
  assert (∃ content, fs w1 !! cache_file self = Some content ∧
                     Py.readlines content !! (cs + i)%nat = Some line)
    as Hfile1.
  { exists (Py.writelines lines). rewrite Hw1, fs_open_write, lookup_insert_eq.
    split; [done|]. rewrite readlines_writelines by done.
    unfold data0 in Hline. by rewrite lookup_drop in Hline. }
  split_and!.
  - intros data_i remote_i w_i Hrec. apply Hun. by eapply Hpre.
  - intros out remote' w' Hrun.
    rewrite (cache_builder_eq _ _ _ _ _ _ _ _ _ _ Hopen) in Hrun.
    unfold build_from in Hrun. fold cc data0 in Hrun.
    destruct (reconcile 0 edges cc data0 remote w1)
      as [[res r2] w2] eqn:Hrec.
    destruct res as [data'|e|].
    + assert (w' = open_write (cache_file self)
                     (Py.writelines cc +:+ Py.writelines data') w2) as ->.
      { destruct (sum_loc data' la ld) as [[? ?]|?|]; by simplify_eq. }
      eexists. rewrite fs_open_write, lookup_insert_eq. split; [done|].
      destruct (reconcile_ok _ _ _ _ _ _ _ _ _ Hrec) as (_ & _ & Hl & _).
      apply Hread; [by apply Hl|].
      rewrite <- (firstn_all edges) in Hrec. by eapply Hpre.
    + injection Hrun as <- <- <-.
      destruct (reconcile_stops _ _ _ _ _ _ _ _ _ Hrec)
        as (k & edge_k & data_k & remote_k & w_k & Hk & Hprefix & Hstep);
        [done|].
      destruct (reconcile_ok _ _ _ _ _ _ _ _ _ Hprefix)
        as (_ & _ & Hl & Hfs).
      pose proof (update_record_fs cc (0 + k) edge_k data_k remote_k w_k)
        as Hfsk.
      rewrite Hstep in Hfsk.
      assert (fs w2 = fs w1 ∨
              fs w2 = <[cache_path user_name
                          := Py.writelines cc +:+ Py.writelines data_k]>
                        (fs w1)) as [->| ->].
      { rewrite <- Hfs. destruct e; auto. }
      * done.
      * destruct (decide (cache_path user_name = cache_file self))
          as [<-|Hne].
        -- eexists. rewrite lookup_insert_eq. split; [done|].
           apply Hread; [by apply Hl|by eapply Hpre].
        -- by rewrite lookup_insert_ne.
    + injection Hrun as <- <- <-.
      destruct (reconcile_stops _ _ _ _ _ _ _ _ _ Hrec)
        as (k & edge_k & data_k & remote_k & w_k & Hk & Hprefix & Hstep);
        [done|].
      destruct (reconcile_ok _ _ _ _ _ _ _ _ _ Hprefix)
        as (_ & _ & _ & Hfs).
      pose proof (update_record_fs cc (0 + k) edge_k data_k remote_k w_k)
        as Hfsk.
      rewrite Hstep in Hfsk. by rewrite Hfsk, Hfs.
  - intros ->. symmetry in Hcached. apply negb_true_iff in Hcached.
    specialize (Hsame Hcached).
    destruct (read_cache_spec self cs w) as (_ & _ & _ & Hsome & Hnone).
    destruct (fs w !! cache_file self) as [content0|] eqn:Hf.
    + exists content0. split; [done|].
      destruct (Hsome content0 eq_refl) as [<- _]. rewrite <- Hsame.
      unfold data0 in Hline. by rewrite lookup_drop in Hline.
    + specialize (Hnone eq_refl). rewrite <- Hsame in Hnone.
      apply lookup_lt_Some in Hline. unfold data0 in Hline.
      rewrite length_drop, Hnone in Hline.
      unfold default_comments in Hline. rewrite length_replicate in Hline.
      lia.
Qed.

(** C3. Take position [i] of the records that the reconciliation starts
    from.  When the hash stored there is the hash of [repositories[i]]
    and the commit total stored there is the live total, iteration [i]
    of the run sends no request and changes nothing, and the record
    line is at its place in the ledger file however the run ends.  When
    the run did not rebuild the ledger, that line is the one the file
    had before the run. *)
Theorem fresh_record_is_not_walked
    edges cs force la ld remote w cached lines w1 i edge line
    repo_hash commit_count more total :
  open_ledger self edges cs force w = (Ok (cached, lines), w1) →
  edges !! i = Some edge →
  drop cs lines !! i = Some line →
  Py.split line = repo_hash :: commit_count :: more →
  repo_hash = sha256_hexdigest (nameWithOwner edge) →
  totalCount edge = Some total →
  Py.int commit_count = Ok total →
  (∀ data_i remote_i w_i,
     reconcile 0 (take i edges) (take cs lines) (drop cs lines) remote w1
     = (Ok data_i, remote_i, w_i) →
     update_record i edge (take cs lines) data_i remote_i w_i
     = (Ok data_i, remote_i, w_i)) ∧
  (∀ out remote' w',
     cache_builder self edges cs force la ld remote w = (out, remote', w') →
     ∃ content, fs w' !! cache_file self = Some content ∧
                Py.readlines content !! (cs + i)%nat = Some line) ∧
  (cached = true →
   ∃ content0, fs w !! cache_file self = Some content0 ∧
               Py.readlines content0 !! (cs + i)%nat = Some line).
Proof.
  intros Hopen Hedge Hline Hsplit Hhash Htotal Hint.
  eapply untouched_record; try done.
  intros data remote0 w0 Hd. unfold update_record, Py.index.
  rewrite Hd, Hsplit, <- Hhash, decide_True, Htotal, Hint by done.
  by rewrite bool_decide_eq_false_2 by (intros Hne; by apply Hne).
Qed.

(** C9. Take position [i] of the records that the reconciliation starts
    from.  When the hash stored there differs from the hash of
    [repositories[i]], iteration [i] of the run sends no request and
    changes nothing: the record is not walked, not reset, and no field
    of it is modified; its line is at its place in the ledger file
    however the run ends. *)
Theorem mismatched_record_is_left_alone
    edges cs force la ld remote w cached lines w1 i edge line
    repo_hash commit_count more :
  open_ledger self edges cs force w = (Ok (cached, lines), w1) →
  edges !! i = Some edge →
  drop cs lines !! i = Some line →
  Py.split line = repo_hash :: commit_count :: more →
  repo_hash ≠ sha256_hexdigest (nameWithOwner edge) →
  (∀ data_i remote_i w_i,
     reconcile 0 (take i edges) (take cs lines) (drop cs lines) remote w1
     = (Ok data_i, remote_i, w_i) →
     update_record i edge (take cs lines) data_i remote_i w_i
     = (Ok data_i, remote_i, w_i)) ∧
  (∀ out remote' w',
     cache_builder self edges cs force la ld remote w = (out, remote', w') →
     ∃ content, fs w' !! cache_file self = Some content ∧
                Py.readlines content !! (cs + i)%nat = Some line) ∧
  (cached = true →
   ∃ content0, fs w !! cache_file self = Some content0 ∧
               Py.readlines content0 !! (cs + i)%nat = Some line).
Proof.
  intros Hopen Hedge Hline Hsplit Hhash.
  eapply untouched_record; try done.
  intros data remote0 w0 Hd. unfold update_record, Py.index.
  by rewrite Hd, Hsplit, decide_False.
Qed.

End LedgerClaims.

Section Recovery.
Context `{Hashlib, Config}.

(** C1. When the remote API fails during a walk, [cache_builder] (of
    the manager of the configured account) re-raises the failure, and
    the ledger file then holds the header lines followed by the record
    lines as the run had them when the walk started: the loop had
    returned from the iterations before [k], the iteration of the
    failing walk; the lines of the positions from [k] on are those the
    reconciliation started from, and each position before [k] holds
    the line its own iteration left. *)
Theorem api_failure_persists_ledger
    edges cs force la ld remote w msg remote' w' :
  let self := new_CacheManager user_name in
  cache_builder self edges cs force la ld remote w
  = (Raise (APIError msg), remote', w') →
  ∃ cached lines w1 k edge data_k remote_k w_k,
    let header := take cs lines in
    let data0 := drop cs lines in
    open_ledger self edges cs force w = (Ok (cached, lines), w1) ∧
    edges !! k = Some edge ∧
    reconcile 0 (take k edges) header data0 remote w1
    = (Ok data_k, remote_k, w_k) ∧
    update_record k edge header data_k remote_k w_k
    = (Raise (APIError msg), remote', w') ∧
    fs w' !! cache_file self
    = Some (Py.writelines header +:+ Py.writelines data_k) ∧
    Py.readlines (Py.writelines header +:+ Py.writelines data_k)
    = header ++ data_k ∧
    length data_k = length data0 ∧
    (∀ j, (k ≤ j)%nat → data_k !! j = data0 !! j) ∧
    (∀ j data_j remote_j w_j,
       (j < k)%nat →
       reconcile 0 (take (S j) edges) header data0 remote w1
       = (Ok data_j, remote_j, w_j) →
       data_k !! j = data_j !! j).
Proof.
  intros self Hrun.
  destruct (open_ledger_spec self edges cs force w)
    as (lines & w1 & Hopen & Hok & _).
  rewrite (cache_builder_eq _ _ _ _ _ _ _ _ _ _ _ Hopen) in Hrun.
  unfold build_from in Hrun.
  set (header := take cs lines) in *. set (data0 := drop cs lines) in *.
  destruct (reconcile 0 edges header data0 remote w1)
    as [[res r2] w2] eqn:Hrec.
  destruct res as [data'|e|]; [|injection Hrun as -> <- <-|done].
  { destruct (sum_loc data' la ld) as [[? ?]|e|] eqn:Hs; try done.
    injection Hrun as -> _ _. by destruct (sum_loc_raise _ _ _ _ Hs). }
  destruct (reconcile_stops _ _ _ _ _ _ _ _ _ Hrec)
    as (k & edge & data_k & remote_k & w_k & Hk & Hprefix & Hstep); [done|].
  simpl in Hstep.
  destruct (reconcile_ok _ _ _ _ _ _ _ _ _ Hprefix)
    as (Hlen & Hframe & Hl & Hfs).
  pose proof (update_record_fs header k edge data_k remote_k w_k) as Hfsk.
  rewrite Hstep in Hfsk.
  assert (lines_ok (header ++ data_k)) as Hlk.
  { apply Hl. unfold header, data0. by rewrite take_drop. }
  exists (negb (needs_rebuild (read_cache self cs w).1 cs edges force)),
    lines, w1, k, edge, data_k, remote_k, w_k.
  fold header data0. split_and!; try done.
  - rewrite Hfsk. apply lookup_insert_eq.
  - by rewrite <- writelines_app, readlines_writelines.
  - intros j Hj. apply Hframe. right. simpl.
    rewrite length_take. lia.
  - intros j data_j remote_j w_j Hj Hrec_j.
    assert (take k edges = take (S j) edges ++ drop (S j) (take k edges))
      as Hsplit.
    { rewrite <- (take_drop (S j) (take k edges)) at 1.
      by rewrite take_take, Nat.min_l by lia. }
    rewrite Hsplit, reconcile_app, Hrec_j in Hprefix.
    destruct (reconcile_ok _ _ _ _ _ _ _ _ _ Hprefix) as (_ & Hframe_j & _).
    apply Hframe_j. left.
    apply lookup_lt_Some in Hk. rewrite length_take. lia.
Qed.

End Recovery.

(** ** Properties of the history walk *)

Section WalkClaims.
Context `{Hashlib, Config}.
Variables (owner repo_name : string) (data cc : list string).
Local Abbreviation walk := (process_loc_for_repo owner repo_name data cc).
Local Abbreviation rq cursor :=
  (mkRequest "recursive_loc" repo_name owner cursor).

(** C10. When a fetched page reports that the repository has no default
    branch, the call that received the page returns its accumulator
    arguments, whatever they are: the totals accumulated so far.  No
    error and no zeroed result; the rest of the remote is not asked. *)
Theorem walk_without_default_branch cursor totals response remote w :
  no_branch response →
  walk cursor totals (response :: remote) w
  = (Ok totals, remote, post (rq cursor) w).
Proof. intros Hn. by apply walk_no_branch. Qed.

(** C7. For each fetched page: the loop over the commits of the page
    adds to the totals the additions, the deletions and the number of
    the commits whose author is the tracked account [owner_id], and
    nothing for the commits of any other author.  The call that
    received the page returns these totals when the page is the last
    one, and hands them to the call for the next page otherwise.  The
    identity is read from the configuration: the only request the call
    sends is that of the page. *)
Theorem walk_counts_tracked_author cursor totals response h remote w :
  delivers response h →
  authors_known h →
  let own := List.filter (λ node, bool_decide (author node = Some owner_id))
               (edges h) in
  let totals' := (totals.1.1 + Zsum (additions <$> own),
                  totals.1.2 + Zsum (deletions <$> own),
                  totals.2 + Z.of_nat (length own)) in
  count_commits (edges h) totals = Ok totals' ∧
  walk cursor totals (response :: remote) w
  = if continuing h
    then on_api_error data cc
           (walk (endCursor h) totals' remote (post (rq cursor) w))
    else (Ok totals', remote, post (rq cursor) w).
Proof.
  intros Hd Hk own totals'. split.
  - by rewrite count_commits_tally.
  - destruct (continuing h) eqn:Hc.
    + by rewrite (walk_next_page _ _ _ _ _ _ _ h).
    + by rewrite (walk_last_page _ _ _ _ _ _ _ h).
Qed.

(** C4, as the code has it.  After a page the walk goes on to the next
    one exactly when the page has at least one commit and the remote
    signals more pages; the next request then carries the page's end
    cursor and the totals so far.  Whether any commit of the page is by
    the tracked account plays no role: a page of commits by others,
    with more pages signalled, does not end the walk. *)
Theorem walk_continues_on_nonempty_page
    cursor totals response h remote w :
  delivers response h →
  authors_known h →
  let out := walk cursor totals (response :: remote) w in
  let totals' := plus3 totals (tally (edges h)) in
  if bool_decide (edges h ≠ []) && hasNextPage h
  then out = on_api_error data cc
               (walk (endCursor h) totals' remote (post (rq cursor) w)) ∧
       ∃ more, sent out.2
               = sent w ++ [rq cursor; rq (endCursor h)] ++ more
  else out = (Ok totals', remote, post (rq cursor) w) ∧
       sent out.2 = sent w ++ [rq cursor].
Proof.
  intros Hd Hk out totals'. subst out totals'.
  destruct (bool_decide (edges h ≠ []) && hasNextPage h) eqn:Hc.
  - rewrite (walk_next_page _ _ _ _ _ _ _ h) by done. split; [done|].
    destruct (walk_sent owner repo_name data cc remote (endCursor h)
                (plus3 totals (tally (edges h)))
                (post (rq cursor) w)) as [more Hm].
    exists more.
    assert (∀ o : Outcome (Z * Z * Z),
              sent (on_api_error data cc o).2 = sent o.2) as ->.
    { intros [[[t|[]|] r'] w']; done. }
    rewrite Hm, sent_post, <- app_assoc. done.
  - rewrite (walk_last_page _ _ _ _ _ _ _ h) by done. split; [done|].
    apply sent_post.
Qed.

End WalkClaims.

(** C4, counterexample.  The first page signals more pages but holds no
    commit: the walk returns at once; the second page is never asked
    for. *)
Lemma empty_page_ends_walk :
  let first := page [] true (Some "c1") in
  let second := page [mine 3 1] false None in
  delivers first (mkHistory [] true (Some "c1")) ∧
  hasNextPage (mkHistory [] true (Some "c1")) = true ∧
  @process_loc_for_repo toy cfg "o" "r" [] [] None (0, 0, 0)
    [first; second] (world0 ∅)
  = (Ok (0, 0, 0), [second], post (loc_request "r" None) (world0 ∅)).
Proof. repeat split. Qed.

Lemma walk_continues_on_nonempty_page_witness :
  let h := mkHistory [theirs 7 7] true (Some "c1") in
  let out := @process_loc_for_repo toy cfg "o" "r" [] [] None (0, 0, 0)
               [page [theirs 7 7] true (Some "c1"); page [mine 3 1] false None]
               (world0 ∅) in
  @tally cfg (edges h) = (0, 0, 0) ∧
  ∃ more, sent out.2 = [loc_request "r" None; loc_request "r" (Some "c1")] ++ more.
Proof.
  intros h out. split; [reflexivity|].
  pose proof (@walk_continues_on_nonempty_page toy cfg "o" "r" [] []
                None (0, 0, 0) (page [theirs 7 7] true (Some "c1")) h
                [page [mine 3 1] false None] (world0 ∅)) as Hw.
  destruct Hw as [_ Hs]; [split; reflexivity|repeat constructor; done|].
  exact Hs.
Defined.

Lemma walk_without_default_branch_witness :
  @process_loc_for_repo toy cfg "o" "r" [] [] (Some "c1") (5, 1, 1)
    [branchless; page [mine 3 1] false None] (world0 ∅)
  = (Ok (5, 1, 1), [page [mine 3 1] false None],
     post (loc_request "r" (Some "c1")) (world0 ∅)).
Proof.
  apply (@walk_without_default_branch toy cfg "o" "r" [] []).
  split; reflexivity.
Defined.

Lemma walk_counts_tracked_author_witness :
  @count_commits cfg [mine 5 1; theirs 7 7; mine 2 3] (100, 10, 1)
  = Ok (107, 14, 3) ∧
  @process_loc_for_repo toy cfg "o" "r" [] [] None (100, 10, 1)
    [page [mine 5 1; theirs 7 7; mine 2 3] false None] (world0 ∅)
  = (Ok (107, 14, 3), [], post (loc_request "r" None) (world0 ∅)).
Proof.
  apply (@walk_counts_tracked_author toy cfg "o" "r" [] [] None (100, 10, 1)
           (page [mine 5 1; theirs 7 7; mine 2 3] false None)
           (mkHistory [mine 5 1; theirs 7 7; mine 2 3] false None)).
  - split; reflexivity.
  - repeat constructor; done.
Defined.

(** ** The archive *)

Section ArchiveFacts.




End ArchiveFacts.




(** ** Worked examples: the ledger *)

(** C5, counterexample.  The ledger has the right number of records and
    the second one is behind the remote: the run walks its history
    (two requests leave) and still returns the flag true.  And a forced
    rebuild over repositories that need no walk returns the flag false
    though no request leaves. *)
Lemma cached_flag_true_after_walk :
  let walked := @cache_builder toy cfg manager repos 1 false 100 10
                  two_pages disk in
  let rebuilt := @cache_builder toy cfg manager idle_repos 1 true 100 10
                   two_pages disk in
  walked.1.1 = Ok (116, 14, 102, true) ∧
  sent walked.2 = [loc_request "b" None; loc_request "b" (Some "c1")] ∧
  rebuilt.1.1 = Ok (100, 10, 90, false) ∧
  sent rebuilt.2 = [].
Proof. repeat split; vm_compute; reflexivity. Qed.

Lemma cached_flag_reports_no_rebuild_witness :
  true = true
  ↔ length (read_cache manager 1 disk).1
    = (1 + length repos)%nat ∧ false = false.
Proof.
  destruct (@cache_builder toy cfg manager repos 1 false 100 10
              two_pages disk) as [[out remote'] w'] eqn:Hrun.
  assert (out = Ok (116, 14, 102, true)) as ->.
  { apply (f_equal (λ o, o.1.1)) in Hrun. vm_compute in Hrun. congruence. }
  exact (@cached_flag_reports_no_rebuild toy cfg manager repos 1 false
           100 10 two_pages disk 116 14 102 true remote' w' Hrun).
Defined.

Lemma totals_sum_final_ledger_witness :
  let w' := (@cache_builder toy cfg manager repos 1 false 100 10
               two_pages disk).2 in
  ∃ content adds dels,
    fs w' !! cache_file manager = Some content ∧
    mapM (field 3) (drop 1 (Py.readlines content)) = Some adds ∧
    mapM (field 4) (drop 1 (Py.readlines content)) = Some dels ∧
    116 = 100 + Zsum adds ∧
    14 = 10 + Zsum dels ∧
    102 = 116 - 14.
Proof.
  intros w'. subst w'.
  destruct (@cache_builder toy cfg manager repos 1 false 100 10
              two_pages disk) as [[out remote'] w'] eqn:Hrun.
  assert (out = Ok (116, 14, 102, true)) as ->.
  { apply (f_equal (λ o, o.1.1)) in Hrun. vm_compute in Hrun. congruence. }
  exact (@totals_sum_final_ledger toy cfg manager repos 1 false
           100 10 two_pages disk 116 14 102 true remote' w' Hrun).
Defined.

Lemma rebuild_writes_sentinels_witness :
  let w := world0 {[ cache_file manager := short_ledger ]} in
  length (drop 1 (read_cache manager 1 w).1) ≠ length repos ∧
  (@open_ledger toy manager repos 1 false w).1
  = Ok (false, [line "# header"; line "6f2f61 0 0 0 0";
                line "6f2f62 0 0 0 0"]).
Proof.
  intros w.
  assert (length (drop 1 (read_cache manager 1 w).1) ≠ length repos)
    as Hne by (vm_compute; lia).
  split; [exact Hne|].
  destruct (@rebuild_writes_sentinels toy cfg manager repos 1 false 0 0 [] w
              (or_introl Hne)) as [Hopen _].
  rewrite Hopen. vm_compute. reflexivity.
Defined.

Lemma fresh_record_is_not_walked_witness :
  let w' := (@cache_builder toy cfg manager repos 1 false 100 10
               two_pages disk).2 in
  ∃ content, fs w' !! cache_file manager = Some content ∧
             Py.readlines content !! 1%nat = Some (line "6f2f61 3 1 10 2").
Proof.
  intros w'. subst w'.
  destruct (@cache_builder toy cfg manager repos 1 false 100 10
              two_pages disk) as [[out remote'] w'] eqn:Hrun.
  destruct (@open_ledger toy manager repos 1 false disk)
    as [[[cached lines]|e|] w1] eqn:Hopen;
    [|by vm_compute in Hopen|by vm_compute in Hopen].
  assert (lines = [line "# header"; line "6f2f61 3 1 10 2";
                   line "6f2f62 0 0 0 0"]) as Hlines.
  { apply (f_equal (λ o, o.1)) in Hopen. vm_compute in Hopen.
    injection Hopen as _ <-. reflexivity. }
  refine (proj1 (proj2
    (@fresh_record_is_not_walked toy cfg manager repos 1 false 100 10
       two_pages disk cached lines w1 0%nat (mkRepoEdge "o/a" (Some 3))
       (line "6f2f61 3 1 10 2") "6f2f61" "3" ["1"; "10"; "2"] 3
       Hopen _ _ _ _ _ _)) out remote' w' Hrun);
    first [by rewrite Hlines | reflexivity].
Defined.

Lemma mismatched_record_is_left_alone_witness :
  let w := world0 {[ cache_file manager := foreign_ledger ]} in
  let w' := (@cache_builder toy cfg manager repos 1 false 0 0
               two_pages w).2 in
  "ffff" ≠ hex_spelling "o/a" ∧
  ∃ content, fs w' !! cache_file manager = Some content ∧
             Py.readlines content !! 1%nat = Some (line "ffff 9 1 10 2").
Proof.
  intros w w'. subst w'. split; [done|].
  destruct (@cache_builder toy cfg manager repos 1 false 0 0
              two_pages w) as [[out remote'] w'] eqn:Hrun.
  destruct (@open_ledger toy manager repos 1 false w)
    as [[[cached lines]|e|] w1] eqn:Hopen;
    [|by vm_compute in Hopen|by vm_compute in Hopen].
  assert (lines = [line "# header"; line "ffff 9 1 10 2";
                   line "6f2f62 2 1 1 1"]) as Hlines.
  { apply (f_equal (λ o, o.1)) in Hopen. vm_compute in Hopen.
    injection Hopen as _ <-. reflexivity. }
  refine (proj1 (proj2
    (@mismatched_record_is_left_alone toy cfg manager repos 1 false 0 0
       two_pages w cached lines w1 0%nat (mkRepoEdge "o/a" (Some 3))
       (line "ffff 9 1 10 2") "ffff" "9" ["1"; "10"; "2"]
       Hopen _ _ _ _)) out remote' w' Hrun);
    first [by rewrite Hlines | reflexivity | done].
Defined.

Lemma api_failure_persists_ledger_witness :
  let w := world0 {[ cache_file manager := three_ledger ]} in
  let out := @cache_builder toy cfg manager three_repos 1 false 0 0
               fails_at_second w in
  out.1.1
  = Raise (APIError
             "Rate limit exceeded. You've hit GitHub's anti-abuse limit.") ∧
  ∃ data_k,
    fs out.2 !! cache_file manager
    = Some (Py.writelines [line "# header"] +:+ Py.writelines data_k) ∧
    length data_k = 3%nat ∧
    data_k !! 2%nat = Some (line "6f2f63 7 1 1 1").
Proof.
  intros w out. subst out.
  destruct (@cache_builder toy cfg manager three_repos 1 false 0 0
              fails_at_second w) as [[res remote'] w'] eqn:Hrun.
  assert (res = Raise (APIError
            "Rate limit exceeded. You've hit GitHub's anti-abuse limit."))
    as ->.
  { apply (f_equal (λ o, o.1.1)) in Hrun. vm_compute in Hrun. congruence. }
  split; [reflexivity|].
  destruct (@api_failure_persists_ledger toy cfg three_repos 1 false 0 0
              fails_at_second w _ remote' w' Hrun)
    as (cached & lines & w1 & k & edge & data_k & remote_k & w_k
        & Hopen & Hk & _ & _ & Hfs & _ & Hlen & Hrest & _).
  assert (lines = [line "# header"; line "6f2f61 0 0 0 0";
                   line "6f2f62 0 0 0 0"; line "6f2f63 7 1 1 1"]) as ->.
  { apply (f_equal (λ o, o.1)) in Hopen. vm_compute in Hopen.
    injection Hopen as _ <-. reflexivity. }
  exists data_k. split; [exact Hfs|]. split; [exact Hlen|].
  apply Hrest. apply lookup_lt_Some in Hk. simpl in Hk. lia.
Defined.

(** * Further properties *)

(** ** Writing and reading back a record *)

Section FormatFacts.

Lemma rev_app_sapp s : ∀ t, String.rev_app s t = String.rev s +:+ t.
Proof.
  unfold String.rev. induction s as [|a s IH]; intros t; [done|].
  simpl. rewrite (IH (String a t)), (IH (String a "")).
  by rewrite sapp_assoc.
Qed.

Lemma rev_cons a s : String.rev (String a s) = String.rev s +:+ String a "".
Proof. unfold String.rev at 1. simpl. apply rev_app_sapp. Qed.

Lemma rev_sapp s t : String.rev (s +:+ t) = String.rev t +:+ String.rev s.
Proof.
  induction s as [|a s IH].
  - by rewrite sapp_nil_l, sapp_nil_r.
  - by rewrite sapp_cons, !rev_cons, IH, sapp_assoc.
Qed.

Lemma rev_rev s : String.rev (String.rev s) = s.
Proof.
  induction s as [|a s IH]; [done|].
  by rewrite rev_cons, rev_sapp, IH.
Qed.

Lemma all_chars_rev p s : Py.all_chars p (String.rev s) = Py.all_chars p s.
Proof.
  induction s as [|a s IH]; [done|].
  rewrite rev_cons, all_chars_app, IH. simpl.
  by rewrite andb_true_r, andb_comm.
Qed.

Lemma int_space_isspace c : Py.int_space c = true → Py.isspace c = true.
Proof.
  destruct c as [[] [] [] [] [] [] [] []]; (done || by vm_compute).
Qed.

Lemma skip_space_no_space s : no_space s = true → Py.skip_space s = s.
Proof.
  destruct s as [|c s]; [done|]. unfold no_space. simpl.
  intros [Hc _]%andb_true_iff.
  destruct (Py.int_space c) eqn:Hi; [|done].
  apply int_space_isspace in Hi. by rewrite Hi in Hc.
Qed.

Lemma trim_no_space s : no_space s = true → Py.trim s = s.
Proof.
  intros Hs. unfold Py.trim. rewrite (skip_space_no_space s Hs).
  rewrite skip_space_no_space by (unfold no_space; by rewrite all_chars_rev).
  apply rev_rev.
Qed.

Lemma int_digits_acc d : ∀ acc,
  Py.int_digits (Z.pos acc) true (NilEmpty.string_of_uint d)
  = Some (Z.pos (Pos.of_uint_acc d acc)).
Proof.
  induction d; intros acc; simpl; try done;
    (etrans; [|apply IHd]); f_equal; lia.
Qed.

Lemma int_digits_uint d :
  Py.int_digits 0 true (NilEmpty.string_of_uint d)
  = Some (Z.of_N (Pos.of_uint d)).
Proof.
  induction d; simpl; try done; apply (int_digits_acc d).
Qed.

Lemma int_digits_uint_nonnil d :
  d ≠ Decimal.Nil →
  Py.int_digits 0 false (NilEmpty.string_of_uint d)
  = Some (Z.of_N (Pos.of_uint d)).
Proof.
  destruct d; intros Hd; simpl; try done;
    first [apply (int_digits_uint d) | apply (int_digits_acc d)].
Qed.

Lemma string_of_uint_unsigned d :
  d ≠ Decimal.Nil →
  ∃ c r, NilEmpty.string_of_uint d = String c r ∧
         c ≠ "+"%char ∧ c ≠ "-"%char.
Proof. destruct d; intros Hd; try done; simpl; by eexists _, _. Qed.

(** [int(str(z))] is [z]. *)
Lemma int_str z : Py.int (Py.str z) = Ok z.
Proof.
  unfold Py.int. rewrite trim_no_space by apply str_no_space.
  unfold Py.str, NilZero.string_of_int, NilZero.string_of_uint.
  destruct z as [|p|p]; simpl.
  - done.
  - pose proof (DecimalPos.Unsigned.to_uint_nonnil p) as Hn.
    destruct (string_of_uint_unsigned _ Hn) as (c & r & Hs & Hp & Hm).
    pose proof (int_digits_uint_nonnil _ Hn) as Hd.
    rewrite DecimalPos.Unsigned.of_to in Hd.
    destruct (Pos.to_uint p); try done; simpl in *; by rewrite Hd.
  - pose proof (DecimalPos.Unsigned.to_uint_nonnil p) as Hn.
    pose proof (int_digits_uint_nonnil _ Hn) as Hd.
    rewrite DecimalPos.Unsigned.of_to in Hd.
    destruct (Pos.to_uint p); try done; simpl in *; by rewrite Hd.
Qed.

Lemma str_token z : token (Py.str z).
Proof.
  split; [apply str_no_space|].
  unfold Py.str, NilZero.string_of_int, NilZero.string_of_uint.
  destruct (Z.to_int z) as [d|d]; destruct d; done.
Qed.

Lemma no_space_app s t : no_space (s +:+ t) = no_space s && no_space t.
Proof. apply all_chars_app. Qed.

(** Splitting reads a token up to the white space after it. *)
Lemma split_go_token t : ∀ tok rest,
  no_space t = true →
  Py.split_go tok (t +:+ rest) = Py.split_go (tok +:+ t) rest.
Proof.
  induction t as [|c t IH]; intros tok rest Ht.
  - by rewrite sapp_nil_l, sapp_nil_r.
  - unfold no_space in Ht. simpl in Ht.
    apply andb_true_iff in Ht as [Hc Ht].
    rewrite sapp_cons. simpl.
    destruct (Py.isspace c); [done|].
    rewrite IH by done. by rewrite sapp_assoc.
Qed.

Lemma split_token_space t rest :
  token t →
  Py.split (t +:+ String " " rest) = t :: Py.split rest.
Proof.
  intros [Ht Hne]. unfold Py.split.
  rewrite split_go_token, sapp_nil_l by done. simpl.
  by destruct t.
Qed.

Lemma split_token_nl t :
  token t → Py.split (t +:+ String Py.nl "") = [t].
Proof.
  intros [Ht Hne]. unfold Py.split.
  rewrite split_go_token, sapp_nil_l by done. simpl.
  by destruct t.
Qed.

Lemma split_token_sep t rest :
  token t → Py.split (t +:+ " " +:+ rest) = t :: Py.split rest.
Proof. apply split_token_space. Qed.

Lemma split_record_line h n a d m :
  token h →
  Py.split (record_line h n (a, d, m))
  = [h; Py.str n; Py.str m; Py.str a; Py.str d].
Proof.
  intros Hh. unfold record_line.
  rewrite split_token_sep by done.
  rewrite !split_token_sep by apply str_token.
  by rewrite split_token_nl by apply str_token.
Qed.

Lemma split_sentinel h :
  token h → Py.split (sentinel h) = [h; "0"; "0"; "0"; "0"].
Proof.
  intros Hh. unfold sentinel.
  change (" 0 0 0 0" +:+ String Py.nl "")
    with (" " +:+ "0" +:+ " " +:+ "0" +:+ " " +:+ "0" +:+ " " +:+ "0"
            +:+ String Py.nl "").
  rewrite split_token_sep by done.
  rewrite !split_token_sep by done.
  by rewrite split_token_nl.
Qed.

Lemma split_head_token s t ts : Py.split s = t :: ts → token t.
Proof. intros Hs. apply (split_tokens s). rewrite Hs. left. Qed.

End FormatFacts.

(** X1. A record line written for a hash without white space reads
    back: splitting it gives the hash and, in the fields 1 to 4, the
    commit total, the commits, the additions and the deletions that
    were written; and it is a complete line. *)
Theorem record_line_reads_back h n a d m :
  token h →
  Py.split (record_line h n (a, d, m)) !! 0%nat = Some h ∧
  field 1 (record_line h n (a, d, m)) = Some n ∧
  field 2 (record_line h n (a, d, m)) = Some m ∧
  field 3 (record_line h n (a, d, m)) = Some a ∧
  field 4 (record_line h n (a, d, m)) = Some d ∧
  Py.readlines (record_line h n (a, d, m)) = [record_line h n (a, d, m)].
Proof.
  intros Hh.
  assert (Py.readlines (record_line h n (a, d, m))
          = [record_line h n (a, d, m)]) as Hread.
  { destruct (terminated_record_line h n (a, d, m)) as (body & -> & Hb).
    { apply no_space_no_nl, Hh. }
    by rewrite readlines_line. }
  unfold field. rewrite split_record_line by done. simpl.
  by rewrite !int_str.
Qed.

Lemma record_line_reads_back_witness :
  token "6f2f62" ∧
  field 3 (record_line "6f2f62" 2 (6, 2, -2)) = Some 6 ∧
  field 2 (record_line "6f2f62" 2 (6, 2, -2)) = Some (-2).
Proof.
  assert (token "6f2f62") as Ht by done.
  split; [exact Ht|].
  destruct (record_line_reads_back "6f2f62" 2 6 2 (-2) Ht)
    as (_ & _ & H2 & H3 & _).
  by split.
Defined.

(** ** Runs that find the ledger up to date *)

Section CacheHit.
Context `{Hashlib, Config}.

Lemma settled_untouched i edge cc line :
  settled edge line → untouched_at i edge cc line.
Proof.
  intros (h & c & more & Hsplit & Hcase) data remote w Hd.
  unfold update_record, Py.index. rewrite Hd, Hsplit.
  destruct Hcase as [Hne|(total & Ht & Hi)].
  - by rewrite decide_False.
  - destruct (decide (h = sha256_hexdigest (nameWithOwner edge))); [|done].
    rewrite Ht, Hi.
    by rewrite bool_decide_eq_false_2 by (intros Hne; by apply Hne).
Qed.

(** A loop over positions whose iterations all do nothing does
    nothing. *)
Lemma reconcile_inert cc rest : ∀ index data remote w,
  (∀ j edge, rest !! j = Some edge →
     ∃ line, data !! (index + j)%nat = Some line ∧
             untouched_at (index + j) edge cc line) →
  reconcile index rest cc data remote w = (Ok data, remote, w).
Proof.
  induction rest as [|edge rest IH]; intros index data remote w Hall; [done|].
  simpl. destruct (Hall 0%nat edge eq_refl) as (line & Hl & Hun).
  rewrite Nat.add_0_r in Hl, Hun. rewrite (Hun _ _ _ Hl).
  apply IH. intros j edge' Hj.
  destruct (Hall (S j) edge' Hj) as (line' & Hl' & Hun').
  rewrite Nat.add_succ_r in Hl', Hun'. eauto.
Qed.

Lemma sum_loc_of_fields data : ∀ la ld adds dels,
  mapM (field 3) data = Some adds →
  mapM (field 4) data = Some dels →
  sum_loc data la ld = Ok (la + Zsum adds, ld + Zsum dels).
Proof.
  induction data as [|line data IH]; intros la ld adds dels Ha Hd.
  - cbv in Ha, Hd. simplify_eq. unfold Zsum. simpl. by rewrite !Z.add_0_r.
  - simpl in Ha, Hd.
    destruct (field 3 line) as [x|] eqn:H3; [|done].
    destruct (field 4 line) as [y|] eqn:H4; [|done].
    destruct (mapM (field 3) data) as [adds'|] eqn:Ha'; [|done].
    destruct (mapM (field 4) data) as [dels'|] eqn:Hd'; [|done].
    injection Ha as <-. injection Hd as <-.
    unfold field in H3, H4. simpl. unfold Py.index.
    destruct (Py.split line !! 3%nat) as [t3|]; [|done]. simpl in *.
    destruct (Py.int t3) as [x'|?|]; [|done|done]. simplify_eq. simpl.
    destruct (Py.split line !! 4%nat) as [t4|]; [|done]. simpl in *.
    destruct (Py.int t4) as [y'|?|]; [|done|done]. simplify_eq. simpl.
    rewrite (IH _ _ adds' dels') by done. unfold Zsum. simpl.
    f_equal. f_equal; lia.
Qed.

Lemma open_write_same path content w :
  fs w !! path = Some content → open_write path content w = w.
Proof.
  intros Hf. destruct w as [fsw qc sn out]. unfold open_write. simpl in *.
  by rewrite insert_id.
Qed.

(** X2. A run over a ledger that has one record per repository, each
    with a foreign hash or with the live commit total, and whose
    fields 3 and 4 are numbers, returns the initial values plus the
    sums of these fields with the flag true.  It consumes no response
    and leaves the world as it was: the files, the counters and the
    log of requests. *)
Theorem settled_ledger_run_changes_nothing
    (self : CacheManager) edges cs la ld remote w content adds dels :
  fs w !! cache_file self = Some content →
  length (Py.readlines content) = (cs + length edges)%nat →
  (∀ i edge, edges !! i = Some edge →
     ∃ line, Py.readlines content !! (cs + i)%nat = Some line ∧
             settled edge line) →
  mapM (field 3) (drop cs (Py.readlines content)) = Some adds →
  mapM (field 4) (drop cs (Py.readlines content)) = Some dels →
  cache_builder self edges cs false la ld remote w
  = (Ok (la + Zsum adds, ld + Zsum dels,
         la + Zsum adds - (ld + Zsum dels), true),
     remote, w).
Proof.
  intros Hf Hlen Hall Ha Hd.
  destruct (read_cache_spec self cs w) as (_ & _ & _ & Hsome & _).
  destruct (Hsome content Hf) as [Hlines Hw0].
  assert (open_ledger self edges cs false w
          = (Ok (true, Py.readlines content), w)) as Hopen.
  { unfold open_ledger.
    destruct (read_cache self cs w) as [l0 w0]. simpl in *. subst.
    unfold check_cache.
    by rewrite (proj2 (needs_rebuild_false _ _ _ _) (conj Hlen eq_refl)). }
  rewrite (cache_builder_eq _ _ _ _ _ _ _ _ _ _ _ Hopen).
  unfold build_from.
  rewrite reconcile_inert.
  - rewrite <- writelines_app, take_drop, writelines_readlines.
    rewrite (open_write_same _ _ _ Hf).
    by rewrite (sum_loc_of_fields _ _ _ adds dels).
  - intros j edge Hj. destruct (Hall j edge Hj) as (line & Hl & Hs).
    exists line. simpl. rewrite lookup_drop. split; [done|].
    by apply settled_untouched.
Qed.

End CacheHit.

(** ** Requests, responses and counters *)

Section TraceFacts.
Context `{Hashlib, Config}.

Lemma asked_refl w : asked 0 w w.
Proof. exists []. by rewrite app_nil_r. Qed.

Lemma asked_trans n m w w1 w2 :
  asked n w w1 → asked m w1 w2 → asked (n + m) w w2.
Proof.
  intros (r1 & L1 & S1 & F1 & Q1) (r2 & L2 & S2 & F2 & Q2).
  exists (r1 ++ r2). split_and!.
  - rewrite length_app. lia.
  - by rewrite S2, S1, <- app_assoc.
  - by apply Forall_app.
  - rewrite Q2, Q1, Nat.add_comm. symmetry. apply Nat.iter_add.
Qed.

Lemma asked_post rq w :
  query_name rq = "recursive_loc" → asked 1 w (post rq w).
Proof.
  intros Hq. exists [rq]. split_and!; try done.
  - apply sent_post.
  - by constructor.
  - unfold post, increment_query_count, bump. rewrite Hq. simpl.
    by destruct (query_count w !! "recursive_loc").
Qed.

Lemma asked_open_write n w w' path content :
  asked n w w' → asked n w (open_write path content w').
Proof. intros (rqs & ? & ? & ? & ?). by exists rqs. Qed.

Lemma asked_force_close_file n w w' data cc :
  asked n w w' → asked n w (force_close_file data cc w').
Proof. intros (rqs & ? & ? & ? & ?). by exists rqs. Qed.

Lemma iter_bump_lookup name n (qc : gmap string nat) :
  Nat.iter n (bump name) qc !! name = (λ k, (n + k)%nat) <$> qc !! name.
Proof.
  induction n as [|n IH]; simpl.
  - by destruct (qc !! name).
  - unfold bump at 1. rewrite IH.
    destruct (qc !! name) as [k|] eqn:Hk; simpl.
    + by rewrite lookup_insert_eq.
    + by rewrite IH.
Qed.

Lemma iter_bump_other name other n (qc : gmap string nat) :
  other ≠ name → Nat.iter n (bump name) qc !! other = qc !! other.
Proof.
  intros Hne. induction n as [|n IH]; [done|]. simpl.
  unfold bump at 1. destruct (Nat.iter n (bump name) qc !! name); [|done].
  by rewrite lookup_insert_ne.
Qed.

(** A walk consumes a prefix of the responses, one per request, but for
    the request that is never answered. *)
Lemma walk_trace owner repo_name data cc remote : ∀ cursor totals w,
  ∃ consumed,
    let '(out, remote', w') :=
      process_loc_for_repo owner repo_name data cc cursor totals remote w in
    remote = consumed ++ remote' ∧
    asked (length consumed + pending out) w w'.
Proof.
  induction remote as [|response remote IH]; intros cursor totals w.
  - exists []. rewrite walk_nil. split; [done|]. by apply asked_post.
  - rewrite walk_cons.
    set (rq := mkRequest "recursive_loc" repo_name owner cursor).
    assert (∀ (r : result (Z * Z * Z)),
              r ≠ Stalled →
              let '(out, remote', w') :=
                on_api_error data cc (r, remote, post rq w) in
              response :: remote = [response] ++ remote' ∧
              asked (length [response] + pending out) w w') as Hone.
    { intros [t|e|] Hr; [|destruct e|done]; simpl;
        (split; [done|]);
        try apply asked_force_close_file; by apply asked_post. }
    destruct (handle_response rq response) as [[repo|]|e|] eqn:Hh.
    + destruct (defaultBranchRef repo) as [h|];
        [|exists [response]; by apply (Hone (Ok totals))].
      destruct (count_commits (edges h) totals) as [totals'|e|] eqn:Hc.
      * destruct (continuing h);
          [|exists [response]; by apply (Hone (Ok totals'))].
        destruct (IH (endCursor h) totals' (post rq w)) as [consumed Hw].
        exists (response :: consumed).
        destruct (process_loc_for_repo owner repo_name data cc
                    (endCursor h) totals' remote (post rq w))
          as [[out remote'] w'].
        destruct Hw as [-> Ha].
        assert (asked (length (response :: consumed) + pending out) w w')
          as Ha'.
        { apply (asked_trans 1 _ w (post rq w) w'); [|done].
          by apply asked_post. }
        destruct out as [t|e|]; [|destruct e|]; simpl;
          (split; [done|]); try apply asked_force_close_file; exact Ha'.
      * exists [response]. by apply (Hone (Raise e)).
      * exists [response]. split; [done|]. simpl.
        apply (asked_trans 1 1 w (post rq w) (post rq w));
          [by apply asked_post|].
        exfalso. clear -Hc. revert totals Hc.
        induction (edges h) as [|node nodes IHn]; intros [[a d] m]; [done|].
        simpl. destruct (author node); [|done].
        destruct (decide (o = owner_id)); apply IHn.
    + exists [response]. by apply (Hone (Raise TypeError)).
    + exists [response]. by apply (Hone (Raise e)).
    + unfold handle_response in Hh. by repeat case_match.
Qed.

Lemma sum_loc_not_stalled data : ∀ la ld, sum_loc data la ld ≠ Stalled.
Proof.
  induction data as [|line data IH]; intros la ld; [done|].
  simpl. unfold Py.index.
  destruct (Py.split line !! 3%nat) as [t3|]; simpl; [|done].
  destruct (Py.int t3) as [x|e'|] eqn:Hx; simpl;
    [|done|by apply int_not_stalled in Hx].
  destruct (Py.split line !! 4%nat) as [t4|]; simpl; [|done].
  destruct (Py.int t4) as [y|e'|] eqn:Hy; simpl;
    [|done|by apply int_not_stalled in Hy].
  apply IH.
Qed.

Lemma update_record_trace i edge cc data remote w :
  ∃ consumed,
    let '(out, remote', w') := update_record i edge cc data remote w in
    remote = consumed ++ remote' ∧
    asked (length consumed + pending out) w w'.
Proof.
  assert (∀ out : result (list string),
            out ≠ Stalled →
            ∃ consumed,
              remote = consumed ++ remote ∧
              asked (length consumed + pending out) w w) as Hnone.
  { intros out Ho. exists []. split; [done|].
    destruct out; try done; apply asked_refl. }
  unfold update_record, on_type_error, Py.index.
  destruct (data !! i) as [line|]; [|by apply Hnone].
  destruct (Py.split line) as [|h [|c more]]; try by apply Hnone.
  destruct (decide (h = sha256_hexdigest (nameWithOwner edge))) as [Hh|Hh];
    [|by apply Hnone].
  destruct (totalCount edge) as [total|]; [|by apply (Hnone (Ok _))].
  destruct (Py.int c) as [stored|err|] eqn:Hi;
    [| apply int_raise in Hi as ->; by apply Hnone
     | by apply int_not_stalled in Hi].
  destruct (bool_decide (stored ≠ total)); [|by apply Hnone].
  destruct (Py.split_on "/" (nameWithOwner edge)) as [|o [|r [|? ?]]];
    try by apply Hnone.
  destruct (walk_trace o r data cc remote None (0, 0, 0) w) as [consumed Hw].
  exists consumed.
  destruct (process_loc_for_repo o r data cc None (0, 0, 0) remote w)
    as [[[loc|err|] remote'] w']; [done| |done].
  by destruct err.
Qed.

Lemma reconcile_trace cc rest : ∀ index data remote w,
  ∃ consumed,
    let '(out, remote', w') := reconcile index rest cc data remote w in
    remote = consumed ++ remote' ∧
    asked (length consumed + pending out) w w'.
Proof.
  induction rest as [|edge rest IH]; intros index data remote w.
  - exists []. simpl. split; [done|]. apply asked_refl.
  - simpl.
    destruct (update_record_trace index edge cc data remote w)
      as [consumed1 H1].
    destruct (update_record index edge cc data remote w)
      as [[[data1|e|] remote1] w1]; try by exists consumed1.
    destruct H1 as [-> A1].
    destruct (IH (S index) data1 remote1 w1) as [consumed2 H2].
    exists (consumed1 ++ consumed2).
    destruct (reconcile (S index) rest cc data1 remote1 w1)
      as [[out remote'] w'].
    destruct H2 as [-> A2]. split; [by rewrite app_assoc|].
    rewrite length_app, <- Nat.add_assoc.
    eapply asked_trans; [|exact A2].
    simpl in A1. by rewrite Nat.add_0_r in A1.
Qed.

Lemma cache_builder_trace
    (self : CacheManager) edges cs force la ld remote w :
  let '(out, remote', w') :=
    cache_builder self edges cs force la ld remote w in
  ∃ consumed rqs,
    remote = consumed ++ remote' ∧
    sent w' = sent w ++ rqs ∧
    Forall (λ rq, query_name rq = "recursive_loc") rqs ∧
    length rqs = (length consumed + pending out)%nat ∧
    query_count w' !! "recursive_loc"
    = (λ k, (length rqs + k)%nat) <$> query_count w !! "recursive_loc" ∧
    ∀ name, name ≠ "recursive_loc" →
            query_count w' !! name = query_count w !! name.
Proof.
  assert (∀ (out : result (Z * Z * Z * bool)) remote' w' consumed,
            remote = consumed ++ remote' →
            asked (length consumed + pending out) w w' →
            ∃ consumed rqs,
              remote = consumed ++ remote' ∧
              sent w' = sent w ++ rqs ∧
              Forall (λ rq, query_name rq = "recursive_loc") rqs ∧
              length rqs = (length consumed + pending out)%nat ∧
              query_count w' !! "recursive_loc"
              = (λ k, (length rqs + k)%nat)
                  <$> query_count w !! "recursive_loc" ∧
              ∀ name, name ≠ "recursive_loc" →
                      query_count w' !! name = query_count w !! name)
    as Hfin.
  { intros out remote' w' consumed Hr (rqs & Hl & Hs & Hf & Hq).
    exists consumed, rqs. split_and!; try done.
    - by rewrite Hq, Hl, iter_bump_lookup.
    - intros name Hne. by rewrite Hq, iter_bump_other. }
  destruct (open_ledger_spec self edges cs force w)
    as (lines & w1 & Hopen & _ & Hw1 & _).
  rewrite (cache_builder_eq _ _ _ _ _ _ _ _ _ _ _ Hopen).
  unfold build_from.
  destruct (reconcile_trace (take cs lines) edges 0 (drop cs lines) remote w1)
    as [consumed Ht].
  destruct (reconcile 0 edges (take cs lines) (drop cs lines) remote w1)
    as [[[data'|e|] remote'] w'] eqn:Hrec; destruct Ht as [Hr Ha].
  - assert (asked (length consumed) w
              (open_write (cache_file self)
                 (Py.writelines (take cs lines) +:+ Py.writelines data') w'))
      as Ha'.
    { apply asked_open_write. simpl in Ha. rewrite Nat.add_0_r in Ha.
      apply (asked_trans 0 _ w w1 w'); [|done].
      rewrite Hw1. apply asked_open_write, asked_refl. }
    destruct (sum_loc data' la ld) as [[a d]|e|] eqn:Hs.
    + apply (Hfin _ _ _ consumed); [done|]. simpl. by rewrite Nat.add_0_r.
    + apply (Hfin _ _ _ consumed); [done|]. simpl. by rewrite Nat.add_0_r.
    + by apply sum_loc_not_stalled in Hs.
  - apply (Hfin _ _ _ consumed); [done|].
    apply (asked_trans 0 _ w w1 w'); [|done].
    rewrite Hw1. apply asked_open_write, asked_refl.
  - apply (Hfin _ _ _ consumed); [done|].
    apply (asked_trans 0 _ w w1 w'); [|done].
    rewrite Hw1. apply asked_open_write, asked_refl.
Qed.

(** X3. In every run of [cache_builder], the requests that leave are
    history requests, one for each response that the run consumes and
    one more when the run is left without answer; the responses are
    consumed in order; and the counter of [recursive_loc] grows by the
    number of these requests while every other counter stays. *)
Theorem requests_responses_and_counter
    (self : CacheManager) edges cs force la ld remote w :
  let '(out, remote', w') :=
    cache_builder self edges cs force la ld remote w in
  ∃ consumed rqs,
    remote = consumed ++ remote' ∧
    sent w' = sent w ++ rqs ∧
    Forall (λ rq, query_name rq = "recursive_loc") rqs ∧
    length rqs = (length consumed + pending out)%nat ∧
    query_count w' !! "recursive_loc"
    = (λ k, (length rqs + k)%nat) <$> query_count w !! "recursive_loc" ∧
    ∀ name, name ≠ "recursive_loc" →
            query_count w' !! name = query_count w !! name.
Proof. apply cache_builder_trace. Qed.

End TraceFacts.

(** ** A second run *)

Section SecondRun.
Context `{Hashlib, Config}.

(** A walk over well-formed responses never raises [TypeError]. *)
Lemma walk_well_formed owner repo_name data cc remote : ∀ cursor totals w,
  Forall well_formed remote →
  (process_loc_for_repo owner repo_name data cc cursor totals remote w).1.1
  ≠ Raise TypeError.
Proof.
  induction remote as [|response remote IH]; intros cursor totals w Hwf;
    [done|].
  inversion Hwf as [|? ? Hr Hrest]; subst.
  rewrite walk_cons.
  set (rq := mkRequest "recursive_loc" repo_name owner cursor).
  destruct (Z.eq_dec (status_code response) 200) as [H200|Hne].
  - rewrite handle_response_200 by done.
    destruct (Hr H200) as (repo & -> & Hk).
    destruct (defaultBranchRef repo) as [h|] eqn:Hb; [|done].
    rewrite count_commits_tally by by apply Hk.
    destruct (continuing h); [|done].
    specialize (IH (endCursor h) (plus3 totals (tally (edges h)))
                  (post rq w) Hrest).
    destruct (process_loc_for_repo owner repo_name data cc (endCursor h)
                (plus3 totals (tally (edges h))) remote (post rq w))
      as [[[t|e|] r'] w']; [done| |done].
    by destruct e.
  - destruct (handle_response_failure rq response Hne) as [msg ->]. done.
Qed.

(** What an iteration that returns leaves at its position needs no
    walk at the next visit. *)
Lemma update_record_stable i edge cc data remote w data' remote' w' :
  Forall well_formed remote →
  update_record i edge cc data remote w = (Ok data', remote', w') →
  ∃ line, data' !! i = Some line ∧ untouched_at i edge cc line.
Proof.
  intros Hwf Hu.
  assert (∀ h, token h → h = sha256_hexdigest (nameWithOwner edge) →
            totalCount edge = None →
            untouched_at i edge cc (sentinel h)) as Hsent.
  { intros h Hh Heq Hnone d r w0 Hd.
    unfold update_record, Py.index.
    rewrite Hd, split_sentinel, decide_True, Hnone by done. simpl.
    by rewrite list_insert_id. }
  assert (∀ h total loc, token h →
            h = sha256_hexdigest (nameWithOwner edge) →
            totalCount edge = Some total →
            untouched_at i edge cc (record_line h total loc)) as Hrec.
  { intros h total [[a d] m] Hh Heq Htot. apply settled_untouched.
    exists h, (Py.str total), [Py.str m; Py.str a; Py.str d].
    split; [by apply split_record_line|]. right. exists total.
    by rewrite int_str. }
  unfold update_record, on_type_error, Py.index in Hu.
  destruct (data !! i) as [line|] eqn:Hd; [|done].
  destruct (Py.split line) as [|h [|c more]] eqn:Hs; try done.
  assert (token h) as Hh by by eapply split_head_token.
  assert (i < length data)%nat as Hi by by eapply lookup_lt_Some.
  destruct (decide (h = sha256_hexdigest (nameWithOwner edge))) as [Heq|Hne].
  - destruct (totalCount edge) as [total|] eqn:Htot.
    + destruct (Py.int c) as [stored|err|] eqn:Hint;
        [| by apply int_raise in Hint as ->
         | by apply int_not_stalled in Hint].
      destruct (bool_decide (stored ≠ total)) eqn:Hb.
      * destruct (Py.split_on "/" (nameWithOwner edge))
          as [|o [|r [|? ?]]]; try done.
        pose proof (walk_well_formed o r data cc remote None (0, 0, 0) w Hwf)
          as Hno.
        destruct (process_loc_for_repo o r data cc None (0, 0, 0) remote w)
          as [[[loc|err|] remote1] w1]; [|by destruct err|done].
        simplify_eq. eexists. rewrite list_lookup_insert_eq by done.
        split; [done|]. by apply Hrec.
      * simplify_eq. exists line. split; [done|].
        apply settled_untouched.
        exists (sha256_hexdigest (nameWithOwner edge)), c, more.
        split; [done|].
        right. exists total. split; [done|].
        apply bool_decide_eq_false in Hb.
        destruct (decide (stored = total)) as [->|]; [done|]. by destruct Hb.
    + simplify_eq. eexists. rewrite list_lookup_insert_eq by done.
      split; [done|]. by apply Hsent.
  - simplify_eq. exists line. split; [done|].
    apply settled_untouched. exists h, c, more. split; [done|]. by left.
Qed.

Lemma reconcile_stable cc rest : ∀ index data remote w data' remote' w',
  Forall well_formed remote →
  reconcile index rest cc data remote w = (Ok data', remote', w') →
  ∀ j edge, rest !! j = Some edge →
    ∃ line, data' !! (index + j)%nat = Some line ∧
            untouched_at (index + j) edge cc line.
Proof.
  induction rest as [|edge rest IH];
    intros index data remote w data' remote' w' Hwf Hr j edge' Hj; [done|].
  simpl in Hr.
  destruct (update_record_trace index edge cc data remote w)
    as [consumed Ht].
  destruct (update_record index edge cc data remote w)
    as [[[data1|e|] remote1] w1] eqn:Hu; try done.
  destruct Ht as [-> _]. apply Forall_app in Hwf as Hwf'.
  destruct Hwf' as [_ Hwf1].
  destruct j as [|j].
  - simpl in Hj. simplify_eq. rewrite Nat.add_0_r.
    destruct (update_record_stable _ _ _ _ _ _ _ _ _ Hwf Hu)
      as (line & Hl & Hun).
    exists line. split; [|done].
    destruct (reconcile_ok _ _ _ _ _ _ _ _ _ Hr) as (_ & Hframe & _).
    rewrite Hframe by lia. done.
  - rewrite Nat.add_succ_r.
    apply (IH (S index) data1 remote1 w1 data' remote' w' Hwf1 Hr j edge' Hj).
Qed.

(** X4. After a run that returned, over responses that carry a
    repository and an author on every commit, and that started from a
    ledger with one record per repository, a second run over the same
    repositories returns the same sums with the flag true; it consumes
    no response and leaves the world as the first run left it. *)
Theorem second_run_changes_nothing
    (self : CacheManager) edges cs force la ld remote w cached lines w0
    a d n c remote1 w1 :
  Forall well_formed remote →
  open_ledger self edges cs force w = (Ok (cached, lines), w0) →
  length lines = (cs + length edges)%nat →
  cache_builder self edges cs force la ld remote w
  = (Ok (a, d, n, c), remote1, w1) →
  cache_builder self edges cs false la ld remote1 w1
  = (Ok (a, d, n, true), remote1, w1).
Proof.
  intros Hwf Hopen Hlen Hrun.
  destruct (open_ledger_spec self edges cs force w)
    as (lines' & w0' & Hopen' & Hok & _).
  rewrite Hopen in Hopen'. injection Hopen' as _ <- <-.
  rewrite (cache_builder_eq _ _ _ _ _ _ _ _ _ _ _ Hopen) in Hrun.
  apply build_from_ok in Hrun as (data' & w2 & Hrec & -> & Hsum & -> & _).
  destruct (reconcile_ok _ _ _ _ _ _ _ _ _ Hrec) as (Hlen' & _ & Hlines & _).
  set (cc := take cs lines) in *.
  assert (length cc = cs) as Hcc by (unfold cc; rewrite length_take; lia).
  assert (lines_ok (cc ++ data')) as Hok'.
  { apply Hlines. unfold cc. by rewrite take_drop. }
  set (content := Py.writelines cc +:+ Py.writelines data').
  set (w1 := open_write (cache_file self) content w2).
  assert (Py.readlines content = cc ++ data') as Hread.
  { unfold content. by rewrite <- writelines_app, readlines_writelines. }
  assert (fs w1 !! cache_file self = Some content) as Hf.
  { unfold w1. rewrite fs_open_write. apply lookup_insert_eq. }
  destruct (read_cache_spec self cs w1) as (_ & _ & _ & Hsome & _).
  destruct (Hsome content Hf) as [Hl0 Hw0].
  assert (open_ledger self edges cs false w1
          = (Ok (true, cc ++ data'), w1)) as Hopen2.
  { unfold open_ledger.
    destruct (read_cache self cs w1) as [l0 w0']. simpl in *. subst l0 w0'.
    unfold check_cache. rewrite Hread.
    rewrite (proj2 (needs_rebuild_false _ _ _ _)); [done|].
    split; [|done]. rewrite length_app, Hlen', length_drop. lia. }
  rewrite (cache_builder_eq _ _ _ _ _ _ _ _ _ _ _ Hopen2).
  unfold build_from.
  rewrite take_app_length', drop_app_length' by done.
  rewrite reconcile_inert.
  - fold content. rewrite (open_write_same _ _ _ Hf). by rewrite Hsum.
  - intros j edge Hj.
    apply (reconcile_stable _ _ _ _ _ _ _ _ _ Hwf Hrec j edge Hj).
Qed.

End SecondRun.

(** ** What a run leaves on the disk *)

Section DiskFacts.
Context `{Hashlib, Config}.

(** A loop leaves the files as they were, or the recovery file holding
    the header and as many record lines as before. *)
Lemma reconcile_fs cc rest index data remote w :
  let '(out, remote', w') := reconcile index rest cc data remote w in
  fs w' = fs w ∨
  ∃ data_k,
    fs w' = <[cache_path user_name
                := Py.writelines cc +:+ Py.writelines data_k]> (fs w) ∧
    length data_k = length data ∧
    (lines_ok (cc ++ data) → lines_ok (cc ++ data_k)).
Proof.
  destruct (reconcile index rest cc data remote w)
    as [[out remote'] w'] eqn:Hrec.
  destruct out as [data'|e|].
  - left. by destruct (reconcile_ok _ _ _ _ _ _ _ _ _ Hrec) as (_ & _ & _ & ?).
  - destruct (reconcile_stops _ _ _ _ _ _ _ _ _ Hrec)
      as (k & edge & data_k & remote_k & w_k & _ & Hpre & Hstep); [done|].
    destruct (reconcile_ok _ _ _ _ _ _ _ _ _ Hpre) as (Hlen & _ & Hl & Hfs).
    pose proof (update_record_fs cc (index + k) edge data_k remote_k w_k)
      as Hk.
    rewrite Hstep in Hk.
    destruct e; try (left; by rewrite Hk, Hfs).
    right. exists data_k. by rewrite Hk, Hfs.
  - destruct (reconcile_stops _ _ _ _ _ _ _ _ _ Hrec)
      as (k & edge & data_k & remote_k & w_k & _ & Hpre & Hstep); [done|].
    destruct (reconcile_ok _ _ _ _ _ _ _ _ _ Hpre) as (_ & _ & _ & Hfs).
    pose proof (update_record_fs cc (index + k) edge data_k remote_k w_k)
      as Hk.
    rewrite Hstep in Hk. left. by rewrite Hk, Hfs.
Qed.

(** X5. A run writes the ledger file of its manager and, on the
    recovery path, the ledger file of the configured account; every
    other file is as it was, however the run ends. *)
Theorem run_touches_only_the_ledger
    (self : CacheManager) edges cs force la ld remote w path :
  path ≠ cache_file self →
  path ≠ cache_path user_name →
  fs (cache_builder self edges cs force la ld remote w).2 !! path
  = fs w !! path.
Proof.
  intros Hself Hcfg.
  destruct (open_ledger_spec self edges cs force w)
    as (lines & w1 & Hopen & _ & Hw1 & _).
  rewrite (cache_builder_eq _ _ _ _ _ _ _ _ _ _ _ Hopen).
  assert (fs w1 !! path = fs w !! path) as H1.
  { by rewrite Hw1, fs_open_write, lookup_insert_ne. }
  unfold build_from.
  pose proof (reconcile_fs (take cs lines) edges 0 (drop cs lines) remote w1)
    as Hfs.
  destruct (reconcile 0 edges (take cs lines) (drop cs lines) remote w1)
    as [[[data'|e|] remote'] w'];
    (destruct Hfs as [Hfs|(data_k & Hfs & _)]; simpl;
     rewrite ?fs_open_write, ?lookup_insert_ne by done;
     rewrite Hfs, ?lookup_insert_ne by done; exact H1).
Qed.

Lemma readlines_terminated_app ls s :
  Forall terminated ls →
  Py.readlines (Py.writelines ls +:+ s) = ls ++ Py.readlines s.
Proof.
  induction 1 as [|l ls (body & -> & Hb) _ IH]; [done|].
  unfold Py.writelines in *. simpl.
  rewrite !sapp_assoc, sapp_cons, sapp_nil_l.
  by rewrite readlines_line, IH.
Qed.

(** However a run ends, its ledger file holds the header that the
    reconciliation started with, followed by as many lines as it
    started with. *)
Lemma final_ledger
    (self : CacheManager) edges cs force la ld remote w cached lines w1 :
  open_ledger self edges cs force w = (Ok (cached, lines), w1) →
  ∃ data_f,
    fs (cache_builder self edges cs force la ld remote w).2
      !! cache_file self
    = Some (Py.writelines (take cs lines) +:+ Py.writelines data_f) ∧
    lines_ok (take cs lines ++ data_f) ∧
    length data_f = length (drop cs lines).
Proof.
  intros Hopen.
  destruct (open_ledger_spec self edges cs force w)
    as (lines' & w1' & Hopen' & Hok & Hw1 & _).
  rewrite Hopen in Hopen'. injection Hopen' as _ <- <-.
  rewrite (cache_builder_eq _ _ _ _ _ _ _ _ _ _ _ Hopen).
  assert (lines_ok (take cs lines ++ drop cs lines)) as Hok0
    by by rewrite take_drop.
  assert (fs w1 !! cache_file self
          = Some (Py.writelines (take cs lines)
                  +:+ Py.writelines (drop cs lines))) as H1.
  { rewrite Hw1, fs_open_write, lookup_insert_eq.
    by rewrite <- writelines_app, take_drop. }
  unfold build_from.
  pose proof (reconcile_fs (take cs lines) edges 0 (drop cs lines) remote w1)
    as Hfs.
  destruct (reconcile 0 edges (take cs lines) (drop cs lines) remote w1)
    as [[[data'|e|] remote'] w'] eqn:Hrec.
  - destruct (reconcile_ok _ _ _ _ _ _ _ _ _ Hrec) as (Hlen & _ & Hl & _).
    exists data'. simpl. rewrite ?fs_open_write, lookup_insert_eq. auto.
  - destruct Hfs as [Hfs|(data_k & Hfs & Hlen & Hl)]; simpl; rewrite Hfs.
    + exists (drop cs lines). auto.
    + destruct (decide (cache_path user_name = cache_file self)) as [<-|Hne].
      * exists data_k. rewrite lookup_insert_eq. auto.
      * exists (drop cs lines). rewrite lookup_insert_ne by done. auto.
  - destruct Hfs as [Hfs|(data_k & Hfs & Hlen & Hl)]; simpl; rewrite Hfs.
    + exists (drop cs lines). auto.
    + destruct (decide (cache_path user_name = cache_file self)) as [<-|Hne].
      * exists data_k. rewrite lookup_insert_eq. auto.
      * exists (drop cs lines). rewrite lookup_insert_ne by done. auto.
Qed.

(** X6. When the ledger has its [comment_size] header lines, each a
    complete line, every run leaves them at the head of the ledger
    file, whether it rebuilds the ledger or not and however it ends;
    and a run that does not rebuild leaves as many lines as it
    found. *)
Theorem run_keeps_the_header
    (self : CacheManager) edges cs force la ld remote w :
  let lines0 := (read_cache self cs w).1 in
  (cs ≤ length lines0)%nat →
  Forall terminated (take cs lines0) →
  ∃ content',
    fs (cache_builder self edges cs force la ld remote w).2
      !! cache_file self = Some content' ∧
    take cs (Py.readlines content') = take cs lines0 ∧
    (needs_rebuild lines0 cs edges force = false →
     length (Py.readlines content') = length lines0).
Proof.
  intros lines0 Hcs Hterm.
  destruct (open_ledger_spec self edges cs force w)
    as (lines & w1 & Hopen & Hok & _ & Hsame & Hre).
  fold lines0 in Hopen, Hsame, Hre.
  destruct (final_ledger self edges cs force la ld remote w _ _ _ Hopen)
    as (data_f & Hf & Hl & Hlen).
  assert (take cs lines = take cs lines0 ∧
          (needs_rebuild lines0 cs edges force = false → lines = lines0))
    as [Hhead Hkeep].
  { destruct (needs_rebuild lines0 cs edges force) eqn:Hn.
    - split; [|done]. rewrite (Hre eq_refl).
      rewrite readlines_terminated_app by done.
      rewrite take_app_length'; [done|]. rewrite length_take. lia.
    - by rewrite (Hsame eq_refl). }
  eexists. split; [exact Hf|].
  rewrite <- writelines_app, readlines_writelines by done.
  assert (length (take cs lines) = cs) as Hcc.
  { rewrite Hhead, length_take. lia. }
  split.
  - by rewrite take_app_length'.
  - intros Hn. rewrite length_app, Hlen, <- length_app, take_drop.
    by rewrite (Hkeep Hn).
Qed.

End DiskFacts.

(** ** The commit count *)

Section CommitStatsFacts.
Context `{Hashlib, Config}.

Lemma sum_commits_raise data : ∀ acc e,
  sum_commits data acc = Raise e → e = IndexError ∨ e = ValueError.
Proof.
  induction data as [|line data IH]; intros acc e; [done|].
  simpl. unfold Py.index.
  destruct (Py.split line !! 2%nat) as [t2|]; simpl;
    [|intros [= <-]; by left].
  destruct (Py.int t2) as [x|e'|] eqn:Hx; simpl;
    [|intros [= <-]; right; by eapply int_raise|done].
  apply IH.
Qed.

Lemma sum_commits_not_stalled data : ∀ acc, sum_commits data acc ≠ Stalled.
Proof.
  induction data as [|line data IH]; intros acc; [done|].
  simpl. unfold Py.index.
  destruct (Py.split line !! 2%nat) as [t2|]; simpl; [|done].
  destruct (Py.int t2) as [x|e'|] eqn:Hx; simpl;
    [|done|by apply int_not_stalled in Hx].
  apply IH.
Qed.

(** On lines that all have a field 2, the loop returns the sum of
    these fields, or [ValueError] when one is no number. *)
Lemma sum_commits_wide data : ∀ acc,
  Forall (λ line, (3 ≤ length (Py.split line))%nat) data →
  sum_commits data acc
  = match mapM (field 2) data with
    | Some mine => Ok (acc + Zsum mine)
    | None => Raise ValueError
    end.
Proof.
  induction data as [|line data IH]; intros acc Hw.
  - cbv [mapM mret option_ret]. unfold Zsum. simpl. by rewrite Z.add_0_r.
  - inversion Hw as [|? ? Hl Hrest]; subst.
    destruct (lookup_lt_is_Some_2 (Py.split line) 2 Hl) as [t2 Ht].
    simpl. unfold Py.index, field. rewrite Ht. simpl.
    destruct (Py.int t2) as [x|e|] eqn:Hx; simpl.
    + rewrite IH by done.
      destruct (mapM _ data) as [mine|]; simpl; [|done].
      unfold Zsum. simpl. f_equal. lia.
    + by apply int_raise in Hx as ->.
    + by apply int_not_stalled in Hx.
Qed.

Lemma field_wide k line z :
  field k line = Some z → (S k ≤ length (Py.split line))%nat.
Proof.
  unfold field. destruct (Py.split line !! k) as [t|] eqn:Ht; [|done].
  intros _. by apply lookup_lt_Some in Ht.
Qed.

Lemma mapM_field_wide k data zs :
  mapM (field k) data = Some zs →
  Forall (λ line, (S k ≤ length (Py.split line))%nat) data.
Proof.
  intros Hm. apply mapM_Some_1 in Hm.
  induction Hm as [|line z data zs Hf _ IH]; constructor; [|done].
  by eapply field_wide.
Qed.

(** A line without field 2, after lines that have one, ends the loop
    with [IndexError]. *)
Lemma sum_commits_short pre : ∀ short post mine acc,
  mapM (field 2) pre = Some mine →
  (length (Py.split short) < 3)%nat →
  sum_commits (pre ++ short :: post) acc = Raise IndexError.
Proof.
  induction pre as [|line pre IH]; intros short post mine acc Hm Hs.
  - simpl. unfold Py.index.
    by rewrite (lookup_ge_None_2 (Py.split short) 2) by lia.
  - simpl in Hm. destruct (field 2 line) as [x|] eqn:Hf; [|done].
    destruct (mapM (field 2) pre) as [mine'|] eqn:Hm'; [|done].
    unfold field in Hf. simpl. unfold Py.index.
    destruct (Py.split line !! 2%nat) as [t2|]; [|done]. simpl in *.
    destruct (Py.int t2) as [x'|?|]; [|done|done]. simpl.
    by apply (IH _ _ mine').
Qed.

(** X7. [count_commit_stats] returns 0 when the ledger file is absent,
    the sum of the fields 2 of the record lines when all of them are
    numbers, and 0 again, dropping what it had summed, when a record
    line has fewer than three fields after lines that parse; the only
    exception that passes is [ValueError]. *)
Theorem count_commit_stats_behaviour cs w :
  (fs w !! cache_path user_name = None → count_commit_stats cs w = Ok 0) ∧
  (∀ content mine,
     fs w !! cache_path user_name = Some content →
     mapM (field 2) (drop cs (Py.readlines content)) = Some mine →
     count_commit_stats cs w = Ok (Zsum mine)) ∧
  (∀ content pre short post mine,
     fs w !! cache_path user_name = Some content →
     drop cs (Py.readlines content) = pre ++ short :: post →
     mapM (field 2) pre = Some mine →
     (length (Py.split short) < 3)%nat →
     count_commit_stats cs w = Ok 0) ∧
  (∀ e, count_commit_stats cs w = Raise e → e = ValueError).
Proof.
  unfold count_commit_stats, open_read.
  fold (cache_path user_name).
  split_and!.
  - by intros ->.
  - intros content mine -> Hm. simpl.
    rewrite sum_commits_wide by by eapply mapM_field_wide.
    by rewrite Hm.
  - intros content pre short post mine -> Hd Hm Hs. simpl. rewrite Hd.
    by rewrite (sum_commits_short _ _ _ mine).
  - intros e. destruct (fs w !! cache_path user_name) as [content|]; [|done].
    simpl.
    destruct (sum_commits (drop cs (Py.readlines content)) 0)
      as [z|e'|] eqn:Hs; [done| |done].
    destruct (sum_commits_raise _ _ _ Hs) as [-> | ->]; [done|].
    by intros [= <-].
Qed.

Lemma sum_loc_wide data : ∀ la ld a d,
  sum_loc data la ld = Ok (a, d) →
  Forall (λ line, (3 ≤ length (Py.split line))%nat) data.
Proof.
  intros la ld a d (adds & dels & Ha & _)%sum_loc_fields.
  eapply Forall_impl; [by eapply mapM_field_wide|]. simpl. lia.
Qed.

(** X8. After a run of the manager of the configured account that
    returned, [count_commit_stats] with the same [comment_size] reads
    the record lines that the run left: it returns the sum of their
    fields 2, or raises [ValueError] when one of these is no number;
    it never falls back to 0. *)
Theorem commit_count_after_run
    edges cs force la ld remote w a d n c remote' w' :
  cache_builder (new_CacheManager user_name) edges cs force la ld remote w
  = (Ok (a, d, n, c), remote', w') →
  ∃ content,
    fs w' !! cache_path user_name = Some content ∧
    count_commit_stats cs w'
    = match mapM (field 2) (drop cs (Py.readlines content)) with
      | Some mine => Ok (Zsum mine)
      | None => Raise ValueError
      end.
Proof.
  intros Hrun.
  destruct (open_ledger_spec (new_CacheManager user_name) edges cs force w)
    as (lines & w1 & Hopen & Hok & _).
  rewrite (cache_builder_eq _ _ _ _ _ _ _ _ _ _ _ Hopen) in Hrun.
  apply build_from_ok in Hrun as (data' & w2 & Hrec & -> & Hsum & -> & _).
  destruct (reconcile_ok _ _ _ _ _ _ _ _ _ Hrec) as (Hlen & _ & Hlines & _).
  eexists. split.
  { rewrite fs_open_write. apply lookup_insert_eq. }
  unfold count_commit_stats, open_read. fold (cache_path user_name).
  rewrite fs_open_write. simpl. rewrite lookup_insert_eq. simpl.
  rewrite <- writelines_app, readlines_writelines
    by (apply Hlines; by rewrite take_drop).
  destruct (drop_header cs lines data' Hlen) as [-> _].
  rewrite sum_commits_wide by by eapply sum_loc_wide.
  by destruct (mapM (field 2) data').
Qed.

End CommitStatsFacts.

(** ** The listing of the repositories *)

Section ListingFacts.
Context `{Hashlib, Config}.








End ListingFacts.

(** ** The archive, read in full *)

Section ArchiveSums.

Lemma archive_totals_of_fields data : ∀ acc adds dels mine,
  mapM (field 3) data = Some adds →
  mapM (field 4) data = Some dels →
  mapM archived_commits data = Some mine →
  archive_totals data acc
  = Ok (acc.1.1 + Zsum adds, acc.1.2 + Zsum dels, acc.2 + Zsum mine).
Proof.
  induction data as [|line data IH]; intros [[a d] c] adds dels mine Ha Hd Hm.
  - cbv in Ha, Hd, Hm. simplify_eq. unfold Zsum. simpl.
    by rewrite !Z.add_0_r.
  - simpl in Ha, Hd, Hm.
    destruct (field 3 line) as [x|] eqn:H3; [|done].
    destruct (field 4 line) as [y|] eqn:H4; [|done].
    destruct (archived_commits line) as [z|] eqn:H2; [|done].
    destruct (mapM (field 3) data) as [adds'|] eqn:Ha'; [|done].
    destruct (mapM (field 4) data) as [dels'|] eqn:Hd'; [|done].
    destruct (mapM archived_commits data) as [mine'|] eqn:Hm'; [|done].
    injection Ha as <-. injection Hd as <-. injection Hm as <-.
    unfold field in H3, H4. unfold archived_commits in H2.
    simpl. destruct (Py.split line) as [|t0 [|t1 [|t2 loc]]]; try done.
    simpl in *. unfold Py.index.
    destruct (loc !! 0%nat) as [l0|]; [|done]. simpl in *.
    destruct (Py.int l0) as [x'|?|]; [|done|done]. simplify_eq. simpl.
    destruct (loc !! 1%nat) as [l1|]; [|done]. simpl in *.
    destruct (Py.int l1) as [y'|?|]; [|done|done]. simplify_eq. simpl.
    destruct (Py.isdigit t2).
    + destruct (Py.int t2) as [z'|?|]; [|done|done]. simplify_eq. simpl.
      rewrite (IH _ adds' dels' mine') by done. unfold Zsum. simpl.
      f_equal. f_equal; [f_equal|]; lia.
    + simplify_eq. simpl.
      rewrite (IH _ adds' dels' mine') by done. unfold Zsum. simpl.
      f_equal. f_equal; [f_equal|]; lia.
Qed.

Lemma slice_records {A} (head records tail : list A) :
  length head = 7%nat → length tail = 3%nat →
  Py.slice 7 (Z.of_nat (length (head ++ records ++ tail)) - 3)
    (head ++ records ++ tail)
  = records.
Proof.
  intros Hh Ht. unfold Py.slice, Py.clip. rewrite !length_app, Hh, Ht.
  destruct (Z.ltb_spec (Z.of_nat (7 + (length records + 3)) - 3) 0); [lia|].
  assert ((7 <? 0) = false) as H7 by done. rewrite !H7.
  replace (Nat.min (7 + (length records + 3)) (Z.to_nat 7)) with 7%nat by lia.
  replace (Nat.min (7 + (length records + 3))
             (Z.to_nat (Z.of_nat (7 + (length records + 3)) - 3)))
    with (7 + length records)%nat by lia.
  rewrite drop_app_length' by done.
  by rewrite take_app_length' by lia.
Qed.

Lemma slice_short {A} (l : list A) :
  (length l ≤ 10)%nat →
  Py.slice 7 (Z.of_nat (length l) - 3) l = [].
Proof.
  intros Hl. unfold Py.slice, Py.clip.
  assert ((7 <? 0) = false) as H7 by done. rewrite !H7.
  replace (_ - _)%nat with 0%nat; [done|].
  destruct (Z.ltb_spec (Z.of_nat (length l) - 3) 0); lia.
Qed.

(** X11. On an archive of seven header lines, record lines and three
    trailer lines, [add_archive] returns the sums of the fields 3 and 4
    of the record lines, their difference, the sum of the fields 2
    that are made of digits plus the number in the fifth field of the
    last line without its last character, and the number of record
    lines. *)
Theorem add_archive_sums
    w content head records tail trailer adds dels mine tok extra :
  fs w !! archive_file = Some content →
  Py.readlines content = head ++ records ++ tail →
  length head = 7%nat →
  length tail = 3%nat →
  last tail = Some trailer →
  mapM (field 3) records = Some adds →
  mapM (field 4) records = Some dels →
  mapM archived_commits records = Some mine →
  Py.split trailer !! 4%nat = Some tok →
  Py.int (Py.drop_last tok) = Ok extra →
  add_archive w
  = Ok [Zsum adds; Zsum dels; Zsum adds - Zsum dels; Zsum mine + extra;
        Z.of_nat (length records)].
Proof.
  intros Hf Hlines Hh Ht Hlast Ha Hd Hm Htok Hextra.
  unfold add_archive, read_archive, open_read, Py.last_item, Py.index.
  rewrite Hf. simpl. rewrite Hlines, slice_records by done.
  rewrite (archive_totals_of_fields _ _ adds dels mine) by done. simpl.
  assert (last (head ++ records ++ tail) = Some trailer) as ->.
  { rewrite app_assoc, last_app, Hlast. done. }
  simpl. rewrite Htok. simpl. by rewrite Hextra.
Qed.

(** X12. An archive of at most ten lines counts no repository and no
    line: [add_archive] returns zeros but for the commits, which are
    the number in the fifth field of the last line. *)
Theorem add_archive_short w content trailer tok extra :
  fs w !! archive_file = Some content →
  (length (Py.readlines content) ≤ 10)%nat →
  last (Py.readlines content) = Some trailer →
  Py.split trailer !! 4%nat = Some tok →
  Py.int (Py.drop_last tok) = Ok extra →
  add_archive w = Ok [0; 0; 0; extra; 0].
Proof.
  intros Hf Hlen Hlast Htok Hextra.
  unfold add_archive, read_archive, open_read, Py.last_item, Py.index.
  rewrite Hf. simpl. rewrite slice_short by done. simpl.
  rewrite Hlast. simpl. rewrite Htok. simpl. by rewrite Hextra.
Qed.

End ArchiveSums.

(** ** Records that are reset *)

Section Resets.
Context `{Hashlib, Config}.

Lemma count_commits_unknown nodes : ∀ totals,
  ¬ Forall (λ node, author node ≠ None) nodes →
  count_commits nodes totals = Raise TypeError.
Proof.
  induction nodes as [|node nodes IH]; intros [[a d] m] Hno.
  - by destruct Hno.
  - simpl. destruct (author node) as [user|] eqn:Hu; [|done].
    assert (¬ Forall (λ node, author node ≠ None) nodes) as Hrest.
    { intros Hall. apply Hno. constructor; [congruence|done]. }
    destruct (decide (user = owner_id)); by apply IH.
Qed.

(** X13. When the record of a repository is behind the remote and the
    first reply of its walk has no repository, or a commit without
    author, the walk raises [TypeError] and the loop catches it: the
    record is reset to the zero record, one response is consumed, no
    file is written and the run goes on. *)
Theorem unreadable_reply_resets_record
    i edge cc data remote w line h c more total stored owner repo_name
    response :
  data !! i = Some line →
  Py.split line = h :: c :: more →
  h = sha256_hexdigest (nameWithOwner edge) →
  totalCount edge = Some total →
  Py.int c = Ok stored →
  stored ≠ total →
  Py.split_on "/" (nameWithOwner edge) = [owner; repo_name] →
  status_code response = 200 →
  (json response = None ∨
   ∃ hist, delivers response hist ∧ ¬ authors_known hist) →
  update_record i edge cc data (response :: remote) w
  = (Ok (<[i := sentinel h]> data), remote,
     post (mkRequest "recursive_loc" repo_name owner None) w).
Proof.
  intros Hd Hs Hh Ht Hi Hne Hsplit H200 Hbad.
  unfold update_record, Py.index.
  rewrite Hd, Hs, decide_True, Ht, Hi, bool_decide_eq_true_2, Hsplit by done.
  rewrite walk_cons, handle_response_200 by done.
  destruct Hbad as [-> | (hist & [_ ->] & Hk)]; [done|].
  simpl. by rewrite count_commits_unknown.
Qed.

(** X14. When the listing reports a repository without default branch
    and the ledger has its hash at its position, the iteration for it
    writes the zero record without any request, whatever the stored
    commit total is; a run that returns leaves that record in the
    ledger file. *)
Theorem branchless_record_is_reset
    (self : CacheManager) edges cs force la ld remote w cached lines w1
    i edge line h c more :
  open_ledger self edges cs force w = (Ok (cached, lines), w1) →
  edges !! i = Some edge →
  drop cs lines !! i = Some line →
  Py.split line = h :: c :: more →
  h = sha256_hexdigest (nameWithOwner edge) →
  totalCount edge = None →
  (∀ data_i remote_i w_i,
     reconcile 0 (take i edges) (take cs lines) (drop cs lines) remote w1
     = (Ok data_i, remote_i, w_i) →
     update_record i edge (take cs lines) data_i remote_i w_i
     = (Ok (<[i := sentinel h]> data_i), remote_i, w_i)) ∧
  (∀ a d n flag remote' w',
     cache_builder self edges cs force la ld remote w
     = (Ok (a, d, n, flag), remote', w') →
     ∃ content, fs w' !! cache_file self = Some content ∧
                Py.readlines content !! (cs + i)%nat = Some (sentinel h)).
Proof.
  intros Hopen Hedge Hline Hsplit Hh Hnone.
  set (cc := take cs lines). set (data0 := drop cs lines) in *.
  assert (∀ data_i remote_i w_i,
            reconcile 0 (take i edges) cc data0 remote w1
            = (Ok data_i, remote_i, w_i) →
            update_record i edge cc data_i remote_i w_i
            = (Ok (<[i := sentinel h]> data_i), remote_i, w_i)) as Hstep.
  { intros data_i remote_i w_i Hpre.
    destruct (reconcile_ok _ _ _ _ _ _ _ _ _ Hpre) as (_ & Hframe & _).
    assert (data_i !! i = Some line) as Hd.
    { rewrite Hframe; [done|]. right. simpl. rewrite length_take. lia. }
    unfold update_record, Py.index.
    by rewrite Hd, Hsplit, decide_True, Hnone. }
  split; [exact Hstep|].
  intros a d n flag remote' w' Hrun.
  destruct (open_ledger_spec self edges cs force w)
    as (lines' & w1' & Hopen' & Hok & _).
  rewrite Hopen in Hopen'. injection Hopen' as _ <- <-.
  rewrite (cache_builder_eq _ _ _ _ _ _ _ _ _ _ _ Hopen) in Hrun.
  apply build_from_ok in Hrun as (data' & w2 & Hrec & -> & _).
  fold cc data0 in Hrec.
  destruct (reconcile_ok _ _ _ _ _ _ _ _ _ Hrec) as (Hlen & _ & Hl & _).
  assert (length cc = cs) as Hcc.
  { apply lookup_lt_Some in Hline. unfold data0 in Hline.
    rewrite length_drop in Hline. unfold cc. rewrite length_take. lia. }
  assert (data' !! i = Some (sentinel h)) as Hfinal.
  { rewrite <- (take_drop_middle edges i edge Hedge) in Hrec.
    rewrite reconcile_app in Hrec.
    destruct (reconcile 0 (take i edges) cc data0 remote w1)
      as [[[data_i|e|] remote_i] w_i] eqn:Hpre; try done.
    simpl in Hrec. rewrite length_take_le in Hrec
      by (apply lookup_lt_Some in Hedge; lia).
    rewrite (Hstep _ _ _ eq_refl) in Hrec.
    destruct (reconcile_ok _ _ _ _ _ _ _ _ _ Hrec) as (_ & Hframe & _).
    rewrite Hframe by lia.
    apply list_lookup_insert_eq.
    destruct (reconcile_ok _ _ _ _ _ _ _ _ _ Hpre) as (Hlen_i & _).
    rewrite Hlen_i. by eapply lookup_lt_Some. }
  eexists. rewrite fs_open_write, lookup_insert_eq. split; [done|].
  rewrite <- writelines_app, readlines_writelines
    by (apply Hl; unfold cc, data0; by rewrite take_drop).
  fold cc. rewrite <- Hcc.
  by rewrite lookup_app_r, Nat.add_comm, Nat.add_sub by lia.
Qed.

End Resets.

(** ** The counters of a whole run *)

Section Counters.
Context `{Hashlib, Config}.




End Counters.

(** ** The lines the loop starts from *)

Section Exceptions.
Context `{Hashlib, Config}.

Lemma count_commits_raise nodes : ∀ totals e,
  count_commits nodes totals = Raise e → e = TypeError.
Proof.
  induction nodes as [|node nodes IH]; intros [[a d] m] e; [done|].
  simpl. destruct (author node) as [user|]; [|by intros [= <-]].
  destruct (decide (user = owner_id)); apply IH.
Qed.

(** Of the exceptions of the embedding, a walk raises [TypeError] or
    [APIError]. *)
Lemma walk_raise owner repo_name data cc remote : ∀ cursor totals w e r' w',
  process_loc_for_repo owner repo_name data cc cursor totals remote w
  = (Raise e, r', w') →
  e = TypeError ∨ ∃ msg, e = APIError msg.
Proof.
  induction remote as [|response remote IH]; intros cursor totals w e r' w';
    [done|].
  rewrite walk_cons.
  set (rq := mkRequest "recursive_loc" repo_name owner cursor).
  assert (∀ (o : Outcome (Z * Z * Z)),
            on_api_error data cc o = (Raise e, r', w') →
            ∃ w'', o = (Raise e, r', w'')) as Hh.
  { intros [[[t|[]|] r0] w0]; simpl; intros [= <- <- <-]; eauto. }
  intros (w'' & Ho)%Hh.
  destruct (handle_response rq response) as [[repo|]|e0|] eqn:Hr.
  - destruct (defaultBranchRef repo) as [h|]; [|done].
    destruct (count_commits (edges h) totals) as [t|e1|] eqn:Hc; [| |done].
    + destruct (continuing h); [|done]. by eapply IH.
    + injection Ho as <- _ _. left. by eapply count_commits_raise.
  - injection Ho as <- _ _. by left.
  - injection Ho as <- _ _. right.
    unfold handle_response in Hr. repeat case_match; simplify_eq; eauto.
  - done.
Qed.

(** An iteration raises [IndexError] only when the ledger has no line
    at its position. *)
Lemma update_record_raise i edge cc data remote w e remote' w' :
  update_record i edge cc data remote w = (Raise e, remote', w') →
  (e = IndexError ∧ data !! i = None) ∨
  e = ValueError ∨
  ∃ msg, e = APIError msg.
Proof.
  unfold update_record, on_type_error, Py.index. intros Hu.
  destruct (data !! i) as [line|]; [|simplify_eq; by left].
  destruct (Py.split line) as [|h [|c more]]; try (simplify_eq; by right; left).
  destruct (decide (h = sha256_hexdigest (nameWithOwner edge))) as [Hh|Hh];
    [|done].
  destruct (totalCount edge) as [total|]; [|done].
  destruct (Py.int c) as [stored|err|] eqn:Hi;
    [| apply int_raise in Hi as ->; simplify_eq; by right; left|done].
  destruct (bool_decide (stored ≠ total)); [|done].
  destruct (Py.split_on "/" (nameWithOwner edge)) as [|o [|r [|? ?]]];
    try (simplify_eq; by right; left).
  destruct (process_loc_for_repo o r data cc None (0, 0, 0) remote w)
    as [[[loc|err|] remote1] w1] eqn:Hw; [done| |done].
  destruct (walk_raise _ _ _ _ _ _ _ _ _ _ _ Hw) as [->|[msg ->]]; [done|].
  simplify_eq. right. right. eauto.
Qed.

Lemma reconcile_raise cc rest : ∀ index data remote w e remote' w',
  reconcile index rest cc data remote w = (Raise e, remote', w') →
  (e = IndexError ∧ (length data < index + length rest)%nat) ∨
  e = ValueError ∨
  ∃ msg, e = APIError msg.
Proof.
  induction rest as [|edge rest IH]; intros index data remote w e remote' w';
    [done|].
  simpl.
  destruct (update_record index edge cc data remote w)
    as [[[data1|e1|] remote1] w1] eqn:Hu; [| |done].
  - intros Hr. apply update_record_length in Hu.
    destruct (IH _ _ _ _ _ _ _ Hr) as [[-> Hlen]|Hother]; [|by right].
    left. split; [done|]. lia.
  - intros [= <- <- <-].
    destruct (update_record_raise _ _ _ _ _ _ _ _ _ Hu)
      as [[-> Hnone]|Hother]; [|by right].
    left. split; [done|]. apply lookup_ge_None in Hnone. lia.
Qed.

(** X16. When the ledger has its header, each line of it complete, and
    the hashes hold no line break, the lines that the reconciliation
    starts from are the [comment_size] header lines and one record per
    repository, rebuilt or not; and the loop over the repositories
    never raises [IndexError]. *)
Theorem opened_ledger_has_one_record_per_repository
    (self : CacheManager) edges cs force w cached lines w1 :
  let lines0 := (read_cache self cs w).1 in
  (∀ name, no_nl (sha256_hexdigest name) = true) →
  (cs ≤ length lines0)%nat →
  Forall terminated (take cs lines0) →
  open_ledger self edges cs force w = (Ok (cached, lines), w1) →
  length lines = (cs + length edges)%nat ∧
  take cs lines = take cs lines0 ∧
  ∀ remote remote' w',
    reconcile 0 edges (take cs lines) (drop cs lines) remote w1
    ≠ (Raise IndexError, remote', w').
Proof.
  intros lines0 Hhash Hcs Hterm Hopen.
  destruct (open_ledger_spec self edges cs force w)
    as (lines' & w1' & Hopen' & _ & _ & Hsame & Hre).
  fold lines0 in Hopen', Hsame, Hre.
  rewrite Hopen in Hopen'. injection Hopen' as _ <- <-.
  assert (length lines = (cs + length edges)%nat ∧
          take cs lines = take cs lines0) as [Hlen Hhead].
  { destruct (needs_rebuild lines0 cs edges force) eqn:Hn.
    - rewrite (Hre eq_refl).
      set (sentinels := (λ node, sentinel _) <$> edges).
      rewrite <- writelines_app, readlines_writelines.
      + assert (length (take cs lines0) = cs) as Hc
          by (rewrite length_take; lia).
        split.
        * rewrite length_app, Hc. unfold sentinels.
          by rewrite length_fmap.
        * by rewrite take_app_length'.
      + apply lines_ok_terminated, Forall_app. split; [done|].
        unfold sentinels. apply Forall_fmap, Forall_forall.
        intros node _. apply terminated_sentinel, Hhash.
    - rewrite (Hsame eq_refl). split; [|done].
      by apply needs_rebuild_false in Hn as [? _]. }
  split_and!; try done.
  intros remote remote' w' Hrec.
  destruct (reconcile_raise _ _ _ _ _ _ _ _ _ Hrec)
    as [[_ Hshort]|[?|[msg ?]]]; try done.
  rewrite length_drop in Hshort. simpl in Hshort. lia.
Qed.

End Exceptions.

(** ** Worked examples: further properties *)

Lemma settled_ledger_run_changes_nothing_witness :
  let w := world0 {[ cache_file manager := settled_ledger ]} in
  @cache_builder toy cfg manager repos 1 false 100 10 two_pages w
  = (Ok (111, 13, 98, true), two_pages, w).
Proof.
  intros w.
  apply (@settled_ledger_run_changes_nothing toy cfg manager repos 1 100 10
           two_pages w settled_ledger [10; 1] [2; 1]);
    try reflexivity.
  intros [|[|i]] edge Hi; try done; injection Hi as <-;
    eexists; (split; [reflexivity|]).
  - exists "6f2f61", "3", ["1"; "10"; "2"]. split; [reflexivity|].
    right. by exists 3.
  - exists "ffff", "9", ["1"; "1"; "1"]. split; [reflexivity|]. by left.
Defined.

Lemma second_run_changes_nothing_witness :
  let first := @cache_builder toy cfg manager repos 1 false 100 10
                 two_pages disk in
  first.1.1 = Ok (116, 14, 102, true) ∧
  @cache_builder toy cfg manager repos 1 false 100 10 first.1.2 first.2
  = (Ok (116, 14, 102, true), first.1.2, first.2).
Proof.
  intros first. subst first.
  destruct (@cache_builder toy cfg manager repos 1 false 100 10
              two_pages disk) as [[out remote1] w1] eqn:Hrun.
  assert (out = Ok (116, 14, 102, true)) as ->.
  { apply (f_equal (λ o, o.1.1)) in Hrun. vm_compute in Hrun. congruence. }
  split; [reflexivity|].
  destruct (@open_ledger toy manager repos 1 false disk)
    as [[[cached lines]|e|] w0] eqn:Hopen;
    [|by vm_compute in Hopen|by vm_compute in Hopen].
  assert (length lines = 3%nat) as Hlen.
  { apply (f_equal (λ o, o.1)) in Hopen. vm_compute in Hopen.
    injection Hopen as _ <-. reflexivity. }
  refine (@second_run_changes_nothing toy cfg manager repos 1 false 100 10
            two_pages disk cached lines w0 116 14 102 true remote1 w1
            _ Hopen Hlen Hrun).
  repeat constructor; intros _; eexists; (split; [reflexivity|]);
    intros h [= <-]; repeat constructor; done.
Defined.

Lemma run_touches_only_the_ledger_witness :
  let w := world0 {[ cache_file manager := ledger;
                     archive_file := good_archive ]} in
  fs (@cache_builder toy cfg manager repos 1 true 0 0 failing w).2
    !! archive_file
  = Some good_archive.
Proof.
  intros w.
  rewrite (@run_touches_only_the_ledger toy cfg manager repos 1 true 0 0
             failing w archive_file); [reflexivity|done|done].
Defined.

Lemma run_keeps_the_header_witness :
  ∃ content',
    fs (@cache_builder toy cfg manager repos 1 true 0 0 failing disk).2
      !! cache_file manager = Some content' ∧
    take 1 (Py.readlines content') = [line "# header"].
Proof.
  destruct (@run_keeps_the_header toy cfg manager repos 1 true 0 0
              failing disk) as (content' & Hf & Hhead & _).
  - vm_compute. lia.
  - repeat constructor. by exists "# header".
  - exists content'. split; [exact Hf|]. rewrite Hhead. reflexivity.
Defined.

Lemma count_commit_stats_behaviour_witness :
  @count_commit_stats toy cfg 1 (world0 ∅) = Ok 0 ∧
  @count_commit_stats toy cfg 1 disk = Ok 1 ∧
  @count_commit_stats toy cfg 1
    (world0 {[ cache_file manager := ledger +:+ line "6f2f63 7" ]}) = Ok 0.
Proof.
  split_and!.
  - apply (@count_commit_stats_behaviour toy cfg 1 (world0 ∅)).
    reflexivity.
  - apply (proj1 (proj2 (@count_commit_stats_behaviour toy cfg 1 disk))
             ledger [1; 0]); reflexivity.
  - apply (proj1 (proj2 (proj2
             (@count_commit_stats_behaviour toy cfg 1
                (world0 {[ cache_file manager
                             := ledger +:+ line "6f2f63 7" ]}))))
             (ledger +:+ line "6f2f63 7")
             [line "6f2f61 3 1 10 2"; line "6f2f62 0 0 0 0"]
             (line "6f2f63 7") [] [1; 0]); try reflexivity.
    vm_compute. lia.
Defined.

Lemma commit_count_after_run_witness :
  let w' := (@cache_builder toy cfg (@new_CacheManager toy "me") repos 1
               false 100 10 two_pages disk).2 in
  ∃ content,
    fs w' !! @cache_path toy "me" = Some content ∧
    @count_commit_stats toy cfg 1 w'
    = match mapM (field 2) (drop 1 (Py.readlines content)) with
      | Some mine => Ok (Zsum mine)
      | None => Raise ValueError
      end.
Proof.
  intros w'. subst w'.
  destruct (@cache_builder toy cfg (@new_CacheManager toy "me") repos 1
              false 100 10 two_pages disk) as [[out remote'] w'] eqn:Hrun.
  assert (out = Ok (116, 14, 102, true)) as ->.
  { apply (f_equal (λ o, o.1.1)) in Hrun. vm_compute in Hrun. congruence. }
  exact (@commit_count_after_run toy cfg repos 1 false 100 10 two_pages disk
           116 14 102 true remote' w' Hrun).
Defined.



Lemma add_archive_sums_witness :
  add_archive (world0 {[ archive_file := good_archive ]})
  = Ok [15; 3; 12; 8; 2].
Proof.
  apply (add_archive_sums (world0 {[ archive_file := good_archive ]})
           good_archive archive_head archive_records archive_tail
           (line "total: a b c 7,") [10; 5] [2; 1] [1; 0] "7," 7);
    reflexivity.
Defined.

Lemma add_archive_short_witness :
  add_archive (world0 {[ archive_file := line "total: a b c 7," ]})
  = Ok [0; 0; 0; 7; 0].
Proof.
  apply (add_archive_short
           (world0 {[ archive_file := line "total: a b c 7," ]})
           (line "total: a b c 7,") (line "total: a b c 7,") "7," 7);
    try reflexivity.
  vm_compute. lia.
Defined.

Lemma unreadable_reply_resets_record_witness :
  @update_record toy cfg 1 (mkRepoEdge "o/b" (Some 2)) [line "# header"]
    [line "6f2f61 3 1 10 2"; line "6f2f62 1 1 6 2"]
    (no_repository :: two_pages) disk
  = (Ok (<[1%nat := sentinel "6f2f62"]>
           [line "6f2f61 3 1 10 2"; line "6f2f62 1 1 6 2"]),
     two_pages, post (loc_request "b" None) disk).
Proof.
  apply (@unreadable_reply_resets_record toy cfg 1 (mkRepoEdge "o/b" (Some 2))
           [line "# header"] _ two_pages disk (line "6f2f62 1 1 6 2")
           "6f2f62" "1" ["1"; "6"; "2"] 2 1 "o" "b" no_repository);
    try reflexivity; [done|by left].
Defined.

Lemma branchless_record_is_reset_witness :
  let w := world0 {[ cache_file manager := odd_ledger ]} in
  let w' := (@cache_builder toy cfg manager branchless_repos 1 false 0 0
               [] w).2 in
  Py.int "many" = Raise ValueError ∧
  ∃ content, fs w' !! cache_file manager = Some content ∧
             Py.readlines content !! 1%nat = Some (sentinel "6f2f61").
Proof.
  intros w w'. subst w'. split; [reflexivity|].
  destruct (@cache_builder toy cfg manager branchless_repos 1 false 0 0
              [] w) as [[out remote'] w'] eqn:Hrun.
  assert (out = Ok (0, 0, 0, true)) as ->.
  { apply (f_equal (λ o, o.1.1)) in Hrun. vm_compute in Hrun. congruence. }
  destruct (@open_ledger toy manager branchless_repos 1 false w)
    as [[[cached lines]|e|] w1] eqn:Hopen;
    [|by vm_compute in Hopen|by vm_compute in Hopen].
  assert (lines = [line "# header"; line "6f2f61 many 1 10 2"]) as Hlines.
  { apply (f_equal (λ o, o.1)) in Hopen. vm_compute in Hopen.
    injection Hopen as _ <-. reflexivity. }
  refine (proj2
    (@branchless_record_is_reset toy cfg manager branchless_repos 1 false
       0 0 [] w cached lines w1 0%nat (mkRepoEdge "o/a" None)
       (line "6f2f61 many 1 10 2") "6f2f61" "many" ["1"; "10"; "2"]
       Hopen _ _ _ _ _) 0 0 0 true remote' w' Hrun);
    first [by rewrite Hlines | reflexivity].
Defined.

Lemma hex_spelling_no_nl name : no_nl (hex_spelling name) = true.
Proof.
  induction name as [|c name IH]; [done|].
  unfold no_nl in *. cbn [hex_spelling Py.all_chars]. rewrite IH.
  assert (∀ n, negb (Ascii.eqb (hex_char n) Py.nl) = true) as Hc.
  { intros [|p]; [done|]. do 4 (destruct p as [p|p|]; try done). }
  by rewrite !Hc.
Qed.

Lemma opened_ledger_has_one_record_per_repository_witness :
  let w := world0 {[ cache_file manager := short_ledger ]} in
  ∃ lines w1,
    @open_ledger toy manager repos 1 false w = (Ok (false, lines), w1) ∧
    length lines = 3%nat.
Proof.
  intros w.
  destruct (@open_ledger toy manager repos 1 false w)
    as [[[cached lines]|e|] w1] eqn:Hopen;
    [|by vm_compute in Hopen|by vm_compute in Hopen].
  assert (cached = false) as ->.
  { apply (f_equal (λ o, o.1)) in Hopen. vm_compute in Hopen. congruence. }
  exists lines, w1. split; [done|].
  apply (@opened_ledger_has_one_record_per_repository toy cfg manager repos 1
           false w false lines w1).
  - apply hex_spelling_no_nl.
  - vm_compute. lia.
  - repeat constructor. by exists "# header".
  - exact Hopen.
Defined.

